(** * DRIBBLE admin client: order status lifecycle and sync protocol

    A shallow embedding of the TypeScript sources of the mobile admin
    client:

    - [src/constants/theme.ts]   : [ORDER_STATUS_CONFIG], [getStatusConfig]
    - [src/services/api.ts]      : token storage, axios interceptors, [ordersAPI]
    - [src/context/AuthContext]  : [logout], [isAuthenticated]
    - [app/order/[id].tsx]       : [getNextStatus], [fetchOrder],
                                   [handleUpdateStatus], [handleCancelOrder],
                                   the component's returns and its action bar
    - [app/orders.tsx]           : [fetchOrders]

    JavaScript values are modelled by the type [JSON] plus [option] for
    [undefined]; asynchronous code is modelled in a state-and-exception
    monad over a [World] that holds the device stores, the React state
    cells, the scripted answers of the transport and a log of observable
    effects. *)

From stdpp Require Import gmap strings list fin_maps.
From Stdlib Require Import ZArith String Bool.

Local Open Scope string_scope.
Local Open Scope Z_scope.

(** ** JavaScript values *)

(** Response payloads and state cells typed [any]. Numbers are integers:
    no claim depends on fractional values. *)
#[local] Set Warnings "-register-all".
Inductive JSON : Type :=
| JNull
| JBool (b : bool)
| JNum (n : Z)
| JStr (s : string)
| JArr (items : list JSON)
| JObj (fields : list (string * JSON)).

(** ToBoolean. [undefined] is [None] at the places where it can occur. *)
Definition truthy (v : JSON) : bool :=
  match v with
  | JNull => false
  | JBool b => b
  | JNum n => negb (n =? 0)
  | JStr s => negb (String.eqb s "")
  | JArr _ | JObj _ => true
  end.

Definition truthy_opt (v : option JSON) : bool :=
  match v with
  | Some x => truthy x
  | None => false
  end.

(** [Array.isArray]. *)
Definition isArray (v : JSON) : bool :=
  match v with
  | JArr _ => true
  | _ => false
  end.

(** Own property of a parsed object; [JSON.parse] keeps the last of
    duplicate keys. *)
Fixpoint field (k : string) (fs : list (string * JSON)) : option JSON :=
  match fs with
  | [] => None
  | (k', v) :: rest =>
      match field k rest with
      | Some v' => Some v'
      | None => if String.eqb k' k then Some v else None
      end
  end.

(** Outcome of the member access [v.k] for a data key [k] that no
    built-in prototype defines ([orders], [status], [detail]). *)
Inductive Access : Type :=
| Value (v : option JSON)      (* the property, or [undefined] *)
| ThrowsTypeError.             (* [null.k] *)

Definition member (v : JSON) (k : string) : Access :=
  match v with
  | JNull => ThrowsTypeError
  | JObj fs => Value (field k fs)
  | JBool _ | JNum _ | JStr _ | JArr _ => Value None
  end.

(** Optional chaining [v?.k], with [v] possibly [undefined]. *)
Definition member_opt (v : option JSON) (k : string) : option JSON :=
  match v with
  | None | Some JNull => None
  | Some (JObj fs) => field k fs
  | Some _ => None
  end.

(** [a || b] *)
Definition js_or (a : option JSON) (b : JSON) : JSON :=
  match a with
  | Some x => if truthy x then x else b
  | None => b
  end.

(** ** Theme: the status registry ([src/constants/theme.ts]) *)

Module colors.
Definition surface := "#1E293B".
Definition textMuted := "#64748B".
Definition pending := "#F59E0B".
Definition paymentPending := "#F97316".
Definition paid := "#10B981".
Definition confirmed := "#3B82F6".
Definition processing := "#8B5CF6".
Definition shipped := "#6366F1".
Definition delivered := "#059669".
Definition cancelled := "#EF4444".
End colors.

Record StatusConfig : Type := mkConfig {
  label : string;
  color : string;
  bgColor : string
}.

(** The own properties of the object literal [ORDER_STATUS_CONFIG]. *)
Definition ORDER_STATUS_CONFIG : gmap string StatusConfig :=
  <["pending" := mkConfig "Pending" colors.pending "rgba(245, 158, 11, 0.15)"]>
  (<["payment_pending" := mkConfig "Payment Pending" colors.paymentPending "rgba(249, 115, 22, 0.15)"]>
  (<["paid" := mkConfig "Paid" colors.paid "rgba(16, 185, 129, 0.15)"]>
  (<["confirmed" := mkConfig "Confirmed" colors.confirmed "rgba(59, 130, 246, 0.15)"]>
  (<["processing" := mkConfig "Processing" colors.processing "rgba(139, 92, 246, 0.15)"]>
  (<["shipped" := mkConfig "Shipped" colors.shipped "rgba(99, 102, 241, 0.15)"]>
  (<["delivered" := mkConfig "Delivered" colors.delivered "rgba(5, 150, 105, 0.15)"]>
  (<["cancelled" := mkConfig "Cancelled" colors.cancelled "rgba(239, 68, 68, 0.15)"]>
   ∅))))))).

(** An object literal inherits from [Object.prototype]; the bracket access
    [ORDER_STATUS_CONFIG[status]] walks the prototype chain. These are the
    property names [Object.prototype] defines (ECMAScript 20.1.3 and
    Annex B.2.2); each is bound to a function, [__proto__] to the
    prototype object, and all of them are truthy. *)
Definition Object_prototype : list string :=
  [ "constructor"; "hasOwnProperty"; "isPrototypeOf"; "propertyIsEnumerable";
    "toLocaleString"; "toString"; "valueOf"; "__proto__";
    "__defineGetter__"; "__defineSetter__"; "__lookupGetter__"; "__lookupSetter__" ].

Definition inherited (k : string) : bool :=
  existsb (String.eqb k) Object_prototype.

(** What [getStatusConfig] can hand back: a label/color record, or the
    member of [Object.prototype] found under the given name. *)
Inductive ConfigValue : Type :=
| Config (c : StatusConfig)
| PrototypeMember (name : string).

(** [ORDER_STATUS_CONFIG[status]]; [None] is [undefined]. *)
Definition config_get (status : string) : option ConfigValue :=
  match ORDER_STATUS_CONFIG !! status with
  | Some c => Some (Config c)
  | None => if inherited status then Some (PrototypeMember status) else None
  end.

(** [ORDER_STATUS_CONFIG[status] || { label: status, color: colors.textMuted,
    bgColor: colors.surface }]; objects and functions are truthy. *)
Definition getStatusConfig (status : string) : ConfigValue :=
  match config_get status with
  | Some v => v
  | None => Config (mkConfig status colors.textMuted colors.surface)
  end.

(** [config.label] and [config.color]: no member of [Object.prototype]
    carries such a property, so they read [undefined] there. *)
Definition label_of (v : ConfigValue) : option string :=
  match v with
  | Config c => Some (label c)
  | PrototypeMember _ => None
  end.

Definition color_of (v : ConfigValue) : option string :=
  match v with
  | Config c => Some (color c)
  | PrototypeMember _ => None
  end.

Definition known_statuses : list string :=
  [ "pending"; "payment_pending"; "paid"; "confirmed"; "processing";
    "shipped"; "delivered"; "cancelled" ].

(** ** The transition resolver ([app/order/[id].tsx]) *)

Definition STATUS_FLOW : list string :=
  [ "pending"; "payment_pending"; "paid"; "confirmed"; "processing";
    "shipped"; "delivered" ].

(** [Array.prototype.indexOf] on an array of strings: first index whose
    element is strictly equal to [x], else [-1]. *)
Fixpoint indexOf_from (l : list string) (x : string) (i : Z) : Z :=
  match l with
  | [] => -1
  | y :: rest => if String.eqb y x then i else indexOf_from rest x (i + 1)
  end.

Definition indexOf (l : list string) (x : string) : Z := indexOf_from l x 0.

(** [Array.prototype.includes]. *)
Definition includes (l : list string) (x : string) : bool :=
  existsb (String.eqb x) l.

Definition getNextStatus (currentStatus : string) : option string :=
  let currentIndex := indexOf STATUS_FLOW currentStatus in
  if (currentIndex =? -1) || (currentIndex >=? Z.of_nat (List.length STATUS_FLOW) - 1)
  then None
  else if String.eqb currentStatus "pending" then Some "confirmed"
  else if String.eqb currentStatus "paid" then Some "confirmed"
  else STATUS_FLOW !! Z.to_nat (currentIndex + 1).

(** Index of a status in the forward ordering, when it has one. *)
Definition flow_index (s : string) : option Z :=
  let i := indexOf STATUS_FLOW s in
  if i =? -1 then None else Some i.

(** ** The world the client runs in *)

Inductive Platform : Type := Web | Native.

Inductive Method : Type := GET | POST | PUT | PATCH | DELETE.

(** A request as it leaves the axios instance: the relative URL, the
    [Authorization] header set by the request interceptor, the query
    parameters and the body. *)
Record Request : Type := mkRequest {
  method : Method;
  url : string;
  authorization : option string;
  params : option JSON;
  body : option JSON
}.

(** What the transport answers: an HTTP response (status and parsed body),
    or nothing (network failure or the 30 s timeout). *)
Inductive Outcome : Type :=
| Resp (status : Z) (data : JSON)
| NoResp.

(** Values a [catch] clause can receive. An axios error carries the
    response when there was one. *)
Inductive JSError : Type :=
| AxiosError (response : option (Z * JSON))
| TypeError (msg : string)
| ProviderError (what : string).   (* a rejection of the notification provider *)

(** Observable effects, in the order they occur. The message of an alert
    is whatever value was passed to [Alert.alert]. *)
Inductive Effect : Type :=
| Sent (r : Request)
| Alert (title : string) (message : JSON)
| ConsoleError (what : string)
| ConsoleLog (what : string).

Record World : Type := mkWorld {
  (* device *)
  platform : Platform;
  asyncStorage : gmap string string;
  secureStore : gmap string string;
  (* transport: the answers to the coming requests, in order *)
  net : list Outcome;
  (* effects so far, oldest first *)
  log : list Effect;
  (* AuthProvider *)
  user : JSON;
  (* OrderDetailScreen *)
  order : JSON;
  isLoading : bool;
  isUpdating : bool;
  (* OrdersScreen *)
  orders : JSON;
  listLoading : bool;
  isRefreshing : bool;
  selectedStatus : string
}.

Definition set_asyncStorage f (w : World) : World :=
  mkWorld (platform w) (f (asyncStorage w)) (secureStore w) (net w) (log w) (user w)
          (order w) (isLoading w) (isUpdating w)
          (orders w) (listLoading w) (isRefreshing w) (selectedStatus w).
Definition set_secureStore f (w : World) : World :=
  mkWorld (platform w) (asyncStorage w) (f (secureStore w)) (net w) (log w) (user w)
          (order w) (isLoading w) (isUpdating w)
          (orders w) (listLoading w) (isRefreshing w) (selectedStatus w).
Definition set_net v (w : World) : World :=
  mkWorld (platform w) (asyncStorage w) (secureStore w) v (log w) (user w)
          (order w) (isLoading w) (isUpdating w)
          (orders w) (listLoading w) (isRefreshing w) (selectedStatus w).
Definition set_log v (w : World) : World :=
  mkWorld (platform w) (asyncStorage w) (secureStore w) (net w) v (user w)
          (order w) (isLoading w) (isUpdating w)
          (orders w) (listLoading w) (isRefreshing w) (selectedStatus w).
Definition set_user v (w : World) : World :=
  mkWorld (platform w) (asyncStorage w) (secureStore w) (net w) (log w) v
          (order w) (isLoading w) (isUpdating w)
          (orders w) (listLoading w) (isRefreshing w) (selectedStatus w).
Definition set_order v (w : World) : World :=
  mkWorld (platform w) (asyncStorage w) (secureStore w) (net w) (log w) (user w)
          v (isLoading w) (isUpdating w)
          (orders w) (listLoading w) (isRefreshing w) (selectedStatus w).
Definition set_isLoading v (w : World) : World :=
  mkWorld (platform w) (asyncStorage w) (secureStore w) (net w) (log w) (user w)
          (order w) v (isUpdating w)
          (orders w) (listLoading w) (isRefreshing w) (selectedStatus w).
Definition set_isUpdating v (w : World) : World :=
  mkWorld (platform w) (asyncStorage w) (secureStore w) (net w) (log w) (user w)
          (order w) (isLoading w) v
          (orders w) (listLoading w) (isRefreshing w) (selectedStatus w).
Definition set_orders v (w : World) : World :=
  mkWorld (platform w) (asyncStorage w) (secureStore w) (net w) (log w) (user w)
          (order w) (isLoading w) (isUpdating w)
          v (listLoading w) (isRefreshing w) (selectedStatus w).
Definition set_listLoading v (w : World) : World :=
  mkWorld (platform w) (asyncStorage w) (secureStore w) (net w) (log w) (user w)
          (order w) (isLoading w) (isUpdating w)
          (orders w) v (isRefreshing w) (selectedStatus w).
Definition set_isRefreshing v (w : World) : World :=
  mkWorld (platform w) (asyncStorage w) (secureStore w) (net w) (log w) (user w)
          (order w) (isLoading w) (isUpdating w)
          (orders w) (listLoading w) v (selectedStatus w).

(** ** A state-and-exception monad for the asynchronous code

    A computation runs to completion on a world and either returns or
    throws; the world survives a throw, as in JavaScript. *)

Inductive Res (A : Type) : Type :=
| Ok (a : A)
| Throw (e : JSError).
Arguments Ok {A} a.
Arguments Throw {A} e.

Definition M (A : Type) : Type := World -> Res A * World.

Definition ret {A} (a : A) : M A := fun w => (Ok a, w).

Definition throw {A} (e : JSError) : M A := fun w => (Throw e, w).

Definition bind {A B} (m : M A) (k : A -> M B) : M B :=
  fun w =>
    match m w with
    | (Ok a, w1) => k a w1
    | (Throw e, w1) => (Throw e, w1)
    end.

Declare Scope js_scope.
Delimit Scope js_scope with js.
Notation "x <- m ;; k" := (bind m (fun x => k))
  (at level 100, m at next level, right associativity) : js_scope.
Notation "m ;; k" := (bind m (fun _ => k))
  (at level 100, right associativity) : js_scope.
Local Open Scope js_scope.

(** [try { body } catch (error) { handler error } finally { fin }] *)
Definition try_catch_finally (body : M unit) (handler : JSError -> M unit)
           (fin : M unit) : M unit :=
  fun w =>
    match body w with
    | (Ok _, w1) => fin w1
    | (Throw e, w1) =>
        match handler e w1 with
        | (Ok _, w2) => fin w2
        | (Throw e', w2) =>
            match fin w2 with
            | (Ok _, w3) => (Throw e', w3)
            | (Throw e'', w3) => (Throw e'', w3)
            end
        end
    end.

Definition try_catch (body : M unit) (handler : JSError -> M unit) : M unit :=
  try_catch_finally body handler (ret tt).

Definition modify (f : World -> World) : M unit := fun w => (Ok tt, f w).
Definition gets {A} (f : World -> A) : M A := fun w => (Ok (f w), w).
Definition emit (e : Effect) : M unit := modify (fun w => set_log (log w ++ [e]) w).

(** Final world and result of a computation. *)
Definition exec {A} (m : M A) (w : World) : World := snd (m w).
Definition result {A} (m : M A) (w : World) : Res A := fst (m w).

(** The requests among a list of effects. *)
Definition requests (es : list Effect) : list Request :=
  omap (fun e => match e with Sent r => Some r | _ => None end) es.

(** The alerts among a list of effects. *)
Definition alerts (es : list Effect) : list (string * JSON) :=
  omap (fun e => match e with Alert t m => Some (t, m) | _ => None end) es.

(** ** Transport and API ([src/services/api.ts]) *)

Definition TOKEN_KEY : string := "auth_token".

Definition setAuthToken (token : string) : M unit :=
  p <- gets platform ;;
  match p with
  | Web => modify (set_asyncStorage (insert TOKEN_KEY token))
  | Native => modify (set_secureStore (insert TOKEN_KEY token))
  end.

Definition getAuthToken : M (option string) :=
  p <- gets platform ;;
  match p with
  | Web => gets (fun w => asyncStorage w !! TOKEN_KEY)
  | Native => gets (fun w => secureStore w !! TOKEN_KEY)
  end.

Definition removeAuthToken : M unit :=
  p <- gets platform ;;
  match p with
  | Web => modify (set_asyncStorage (delete TOKEN_KEY))
  | Native => modify (set_secureStore (delete TOKEN_KEY))
  end.

(** The token a world holds for its platform. *)
Definition stored_token (w : World) : option string :=
  match platform w with
  | Web => asyncStorage w !! TOKEN_KEY
  | Native => secureStore w !! TOKEN_KEY
  end.

(** Request interceptor: [if (token) config.headers.Authorization = ...];
    the empty string is falsy. *)
Definition bearer (token : option string) : option string :=
  match token with
  | Some t => if String.eqb t "" then None else Some ("Bearer " ++ t)
  | None => None
  end.

(** axios resolves exactly the statuses [200 <= s < 300]. *)
Definition is2xx (st : Z) : bool := (200 <=? st) && (st <? 300).

Definition next_outcome : M Outcome :=
  fun w =>
    match net w with
    | [] => (Ok NoResp, w)
    | o :: rest => (Ok o, set_net rest w)
    end.

(** Response interceptor, rejection branch. *)
Definition on_rejected (response : option (Z * JSON)) : M JSON :=
  (match response with
   | Some (st, _) => if st =? 401 then removeAuthToken else ret tt
   | None => ret tt
   end) ;;
  throw (AxiosError response).

(** One call through the axios instance [api]; returns [response.data]. *)
Definition api_call (m : Method) (u : string) (ps bd : option JSON) : M JSON :=
  token <- getAuthToken ;;
  emit (Sent (mkRequest m u (bearer token) ps bd)) ;;
  o <- next_outcome ;;
  match o with
  | Resp st d => if is2xx st then ret d else on_rejected (Some (st, d))
  | NoResp => on_rejected None
  end.

Module authAPI.
Definition getCurrentUser : M JSON := api_call GET "/auth/me" None None.
End authAPI.

Module ordersAPI.
Definition getOrders (ps : JSON) : M JSON :=
  api_call GET "/admin/orders" (Some ps) None.

Definition getOrder (orderId : string) : M JSON :=
  api_call GET ("/orders/" ++ orderId) None None.

Definition updateOrderStatus (orderId status : string) : M JSON :=
  api_call PUT ("/admin/orders/" ++ orderId ++ "/status") None
           (Some (JObj [("status", JStr status)])).

(** [{ reason }]: an [undefined] reason is dropped on serialization. *)
Definition cancelOrder (orderId : string) (reason : option string) : M JSON :=
  api_call POST ("/admin/orders/" ++ orderId ++ "/cancel") None
           (Some (JObj match reason with
                       | Some r => [("reason", JStr r)]
                       | None => []
                       end)).

Definition getOrderStats : M JSON :=
  api_call GET "/admin/orders/stats" None None.
End ordersAPI.

(** The earlier revision of [api.ts] kept in the repository. *)
Module Legacy.
Definition updateOrderStatus (orderId status : string) : M JSON :=
  api_call PATCH ("/admin/orders/" ++ orderId ++ "/status") None
           (Some (JObj [("status", JStr status)])).
End Legacy.

(** ** Session ([src/context/AuthContext.tsx]) *)

(** [isAuthenticated: !!user] *)
Definition isAuthenticated (w : World) : bool := truthy (user w).

(** [logout], over what removing the token does: the call to the store is
    awaited inside the [try], and when it rejects [setUser(null)] is
    skipped. *)
Definition logout_with (remove : M unit) : M unit :=
  try_catch
    (remove ;; modify (set_user JNull))
    (fun _ => emit (ConsoleError "Logout error:")).

Definition logout : M unit := logout_with removeAuthToken.

(** [app/index.tsx], once the provider has finished loading. *)
Inductive Route : Type := ToOrders | ToLogin.

Definition Index (w : World) : Route :=
  if isAuthenticated w then ToOrders else ToLogin.

(** ** Order detail screen ([app/order/[id].tsx]) *)

(** [error.response?.data?.detail] *)
Definition error_detail (error : JSError) : option JSON :=
  match error with
  | AxiosError (Some (_, d)) => member_opt (Some d) "detail"
  | AxiosError None => None
  | TypeError _ => None
  | ProviderError _ => None
  end.

(** [error.response?.status] *)
Definition error_status (error : JSError) : option Z :=
  match error with
  | AxiosError (Some (st, _)) => Some st
  | AxiosError None => None
  | TypeError _ => None
  | ProviderError _ => None
  end.

Definition fetchOrder (id : string) : M unit :=
  try_catch_finally
    (modify (set_isLoading true) ;;
     data <- ordersAPI.getOrder id ;;
     modify (set_order data))
    (fun error =>
       emit (ConsoleError "Error fetching order:") ;;
       emit (Alert "Error" (JStr "Failed to load order details")))
    (modify (set_isLoading false)).

(** The button the operator presses in a confirmation dialog. *)
Inductive Choice : Type := Dismiss | Accept.

(** A template literal prints [undefined] for a missing value. *)
Definition interpolate (v : option string) : string :=
  match v with
  | Some s => s
  | None => "undefined"
  end.

Definition dquote : string := String (Ascii.ascii_of_nat 34) EmptyString.

Definition handleUpdateStatus (id newStatus : string) (c : Choice) : M unit :=
  let statusConfig := getStatusConfig newStatus in
  emit (Alert "Update Status"
              (JStr ("Change order status to " ++ dquote
                       ++ interpolate (label_of statusConfig) ++ dquote ++ "?"))) ;;
  match c with
  | Dismiss => ret tt
  | Accept =>
      try_catch_finally
        (modify (set_isUpdating true) ;;
         _ <- ordersAPI.updateOrderStatus id newStatus ;;
         fetchOrder id ;;
         emit (Alert "Success"
                     (JStr ("Order status updated to "
                              ++ interpolate (label_of statusConfig)))))
        (fun error =>
           emit (ConsoleError "Error updating status:") ;;
           emit (Alert "Error" (js_or (error_detail error)
                                      (JStr "Failed to update status"))))
        (modify (set_isUpdating false))
  end.

Definition handleCancelOrder (id : string) (c : Choice) : M unit :=
  emit (Alert "Cancel Order"
              (JStr "Are you sure you want to cancel this order? This action cannot be undone.")) ;;
  match c with
  | Dismiss => ret tt
  | Accept =>
      try_catch_finally
        (modify (set_isUpdating true) ;;
         _ <- ordersAPI.cancelOrder id (Some "Cancelled by admin from mobile app") ;;
         fetchOrder id ;;
         emit (Alert "Order Cancelled"
                     (JStr "The order has been cancelled successfully.")))
        (fun error =>
           emit (ConsoleError "Error cancelling order:") ;;
           emit (Alert "Error" (js_or (error_detail error)
                                      (JStr "Failed to cancel order"))))
        (modify (set_isUpdating false))
  end.

(** [order.status] as a string; a status of another type is strictly
    equal to no string, so every comparison below is false for it. *)
Definition status_text (o : JSON) : option string :=
  match member_opt (Some o) "status" with
  | Some (JStr s) => Some s
  | _ => None
  end.

Definition status_is (status : option string) (s : string) : bool :=
  match status with
  | Some x => String.eqb x s
  | None => false
  end.

(** The part of the rendered screen the lifecycle rules decide. *)
Record Actions : Type := mkActions {
  cancelControl : bool;              (* the Cancel button is rendered *)
  advanceControl : option string     (* the advance button and its target *)
}.

(** The [return] the component takes. [OrderMarkup o] is the JSX of the
    last [return], built for order [o]; building the sections above the
    action bar can still throw on a payload of the wrong shape (an
    [items] that is no array, an object where a text is expected), which
    this type leaves open. *)
Inductive DetailView : Type :=
| LoadingView
| NotFoundView
| OrderMarkup (o : JSON).

(** [const nextStatus = getNextStatus(order.status)]
    [const canCancel = !['cancelled','delivered','shipped'].includes(order.status)]
    and the action container of the JSX. *)
Definition render_actions (status : option string) : Actions :=
  let nextStatus :=
    match status with
    | Some s => getNextStatus s
    | None => None
    end in
  let canCancel :=
    negb match status with
         | Some s => includes ["cancelled"; "delivered"; "shipped"] s
         | None => false
         end in
  if negb (status_is status "cancelled") && negb (status_is status "delivered")
  then mkActions canCancel
                 match nextStatus with
                 | Some n => if String.eqb n "" then None else Some n
                 | None => None
                 end
  else mkActions false None.

Definition OrderDetailScreen (w : World) : DetailView :=
  if isLoading w then LoadingView
  else if negb (truthy (order w)) then NotFoundView
  else OrderMarkup (order w).

(** The action bar of that JSX, for the order it is built for. *)
Definition action_bar (o : JSON) : Actions := render_actions (status_text o).

(** ** Order list screen ([app/orders.tsx]) *)

(** [Array.isArray(data) ? data : data.orders || []] *)
Definition list_payload (data : JSON) : M JSON :=
  if isArray data then ret data
  else match member data "orders" with
       | Value o => ret (js_or o (JArr []))
       | ThrowsTypeError => throw (TypeError "Cannot read properties of null")
       end.

(** [fetchOrders] is a closure of the render that created it and reads
    the [selectedStatus] of that render. *)
Definition fetchOrders_of (sel : string) (showLoader : bool) : M unit :=
  try_catch_finally
    ((if showLoader then modify (set_listLoading true) else ret tt) ;;
     let ps := JObj (("limit", JNum 100)
                       :: if String.eqb sel "all" then [] else [("status", JStr sel)]) in
     data <- ordersAPI.getOrders ps ;;
     v <- list_payload data ;;
     modify (set_orders v))
    (fun error =>
       emit (ConsoleError "Error fetching orders:") ;;
       match error_status error with
       | Some st =>
           if st =? 401
           then emit (Alert "Session Expired" (JStr "Please login again")) ;; logout
           else ret tt
       | None => ret tt
       end)
    (modify (set_listLoading false) ;; modify (set_isRefreshing false)).

(** The closure of the current render: what the focus effect (recreated
    whenever [selectedStatus] changes) and [handleRefresh] call. *)
Definition fetchOrders (showLoader : bool) : M unit :=
  sel <- gets selectedStatus ;;
  fetchOrders_of sel showLoader.

(** The notification listener is registered once, by an effect without
    dependencies, so the [fetchOrders] it calls is the closure of the
    first render, whose [selectedStatus] is the initial ['all']. *)
Definition onNotificationReceived : M unit :=
  emit (ConsoleLog "Notification received:") ;;
  fetchOrders_of "all" false.

(** ** Vocabulary of the statements *)

(** The two status-changing actions of the detail screen, once the
    operator has accepted the confirmation dialog. *)
Inductive Mutation : Type :=
| Advance (newStatus : string)
| Cancel.

Definition perform (id : string) (mut : Mutation) : M unit :=
  match mut with
  | Advance newStatus => handleUpdateStatus id newStatus Accept
  | Cancel => handleCancelOrder id Accept
  end.

(** The request a mutation sends from world [w]. *)
Definition mutation_request (id : string) (mut : Mutation) (w : World) : Request :=
  match mut with
  | Advance newStatus =>
      mkRequest PUT ("/admin/orders/" ++ id ++ "/status") (bearer (stored_token w))
                None (Some (JObj [("status", JStr newStatus)]))
  | Cancel =>
      mkRequest POST ("/admin/orders/" ++ id ++ "/cancel") (bearer (stored_token w))
                None (Some (JObj [("reason", JStr "Cancelled by admin from mobile app")]))
  end.

Definition refetch_request (id : string) (w : World) : Request :=
  mkRequest GET ("/orders/" ++ id) (bearer (stored_token w)) None None.

(** The confirmation dialog a mutation opens first. *)
Definition dialog (mut : Mutation) : string * JSON :=
  match mut with
  | Advance newStatus =>
      ("Update Status",
       JStr ("Change order status to " ++ dquote
               ++ interpolate (label_of (getStatusConfig newStatus)) ++ dquote ++ "?"))
  | Cancel =>
      ("Cancel Order",
       JStr "Are you sure you want to cancel this order? This action cannot be undone.")
  end.

Definition success_notice (mut : Mutation) : string * JSON :=
  match mut with
  | Advance newStatus =>
      ("Success",
       JStr ("Order status updated to " ++ interpolate (label_of (getStatusConfig newStatus))))
  | Cancel => ("Order Cancelled", JStr "The order has been cancelled successfully.")
  end.


Definition load_failure_notice : string * JSON :=
  ("Error", JStr "Failed to load order details").

(** The error a call is rejected with, when the transport's answer makes
    it fail: a response outside 2xx, or no response at all. *)
Definition failure_of (o : Outcome) : option JSError :=
  match o with
  | Resp st d => if is2xx st then None else Some (AxiosError (Some (st, d)))
  | NoResp => Some (AxiosError None)
  end.

(** Token eviction, as the response interceptor performs it. *)
Definition evict (w : World) : World := exec removeAuthToken w.

(** The world after a request was sent and its answer taken off the script. *)
Definition sent (r : Request) (rest : list Outcome) (w : World) : World :=
  set_net rest (set_log (log w ++ [Sent r]) w).

(** *** Sample worlds *)

Definition sample_order (status : string) : JSON :=
  JObj [("id", JStr "o1"); ("order_number", JStr "1001"); ("status", JStr status)].

Definition sample_user : JSON :=
  JObj [("id", JStr "u1"); ("email", JStr "admin@dribble.com"); ("role", JStr "admin")].

(** A phone with a signed-in operator who looks at the pending order
    [o1]; the transport will answer with [script]. *)
Definition phone (script : list Outcome) : World :=
  mkWorld Native ∅ {[ TOKEN_KEY := "t0" ]} script [] sample_user
          (sample_order "pending") false false
          (JArr [sample_order "pending"]) false false "all".

(** *** Sentences of the specification that the code does not satisfy *)

(** After a successful mutation the displayed order is the payload of the
    re-fetch, whatever the client held before. *)
Definition displays_refetched_payload (id : string) (mut : Mutation) (w : World) : Prop :=
  forall st d rest,
    net w = Resp st d :: rest -> is2xx st = true ->
    exists st' d',
      head rest = Some (Resp st' d')
      /\ order (exec (perform id mut) w) = d'.

(** A 401 answer to any call leaves the client unauthenticated: no stored
    token and no signed-in user at the next render. *)
Definition evicts_and_signs_out (m : Method) (u : string) (ps bd : option JSON)
           (w : World) : Prop :=
  forall d rest,
    net w = Resp 401 d :: rest ->
    let w' := exec (api_call m u ps bd) w in
    stored_token w' = None /\ isAuthenticated w' = false.

(** A list response that is neither an array nor an object with an array
    under [orders] empties the displayed list and raises no alert. *)
Definition other_shape (data : JSON) : Prop :=
  isArray data = false
  /\ forall l, member data "orders" <> Value (Some (JArr l)).

Definition other_shape_empties_list (data : JSON) (w : World) : Prop :=
  forall st rest showLoader,
    other_shape data ->
    net w = Resp st data :: rest -> is2xx st = true ->
    let w' := exec (fetchOrders showLoader) w in
    orders w' = JArr [] /\ alerts (log w') = alerts (log w).

(** For a status outside the eight known codes the registry answers with
    a fallback whose label is the raw status and whose color is neutral. *)
Definition resolves_to_fallback (status : string) : Prop :=
  status ∉ known_statuses ->
  label_of (getStatusConfig status) = Some status
  /\ color_of (getStatusConfig status) = Some colors.textMuted.

(** ** Remaining endpoints of [src/services/api.ts] *)

(** [authAPI.login] *)
Definition authAPI_login (email password : string) : M JSON :=
  api_call POST "/auth/login" None
           (Some (JObj [("email", JStr email); ("password", JStr password)])).

Module notificationsAPI.
Definition registerPushToken (token : string) (deviceInfo : JSON) : M JSON :=
  api_call POST "/admin/push-tokens" None
           (Some (JObj [("push_token", JStr token); ("device_info", deviceInfo)])).
End notificationsAPI.

(** ** Order card ([src/components/OrderCard.tsx]) *)

(** A JavaScript number as far as exact arithmetic reaches: a whole
    number of magnitude at most 2^53, or a double this model says nothing
    about (a fraction, a larger magnitude, [NaN], or what a non-number
    was coerced to). *)
Inductive Num : Type :=
| Whole (n : Z)
| Undetermined.

Definition MAX_SAFE : Z := 2 ^ 53.

Definition safe (n : Z) : bool := (- MAX_SAFE <=? n) && (n <=? MAX_SAFE).

(** [a + b] on doubles. Every whole number within the bound is a double,
    and an addition whose exact result is a double returns it; everything
    else rounds, and is left undetermined. *)
Definition num_add (a b : Num) : Num :=
  match a, b with
  | Whole x, Whole y =>
      if safe x && safe y && safe (x + y) then Whole (x + y) else Undetermined
  | _, _ => Undetermined
  end.

(** [interface OrderItem] *)
Record OrderItem : Type := mkItem {
  item_name : string;
  quantity : Num;
  item_size : string;
  item_color : string
}.

(** [order.items?.reduce((sum, item) => sum + item.quantity, 0) || 0];
    [None] is a card whose order has no [items]. A zero sum is falsy and
    replaced by [0], which changes nothing. *)
Definition totalItems (items : option (list OrderItem)) : Num :=
  match items with
  | Some l =>
      match fold_left (fun sum item => num_add sum (quantity item)) l (Whole 0) with
      | Whole total => if total =? 0 then Whole 0 else Whole total
      | Undetermined => Undetermined
      end
  | None => Whole 0
  end.

(** ** State outside the two order screens *)

(** Calls made to the notification provider ([expo-notifications]). *)
Inductive ProviderCall : Type :=
| GetPermissions
| RequestPermissions
| GetExpoPushToken
| SetNotificationChannel (name : string).

Inductive NativeOS : Type := Android | Ios.

(** What the device and the notification provider answer. Each of the
    four provider calls may reject: [getExpoPushTokenAsync] ([None]) is
    guarded by the code's own [try], the other three are awaited outside
    any [try] and their rejection leaves the function. *)
Record PushEnv : Type := mkPushEnv {
  isDevice : bool;                   (* [Device.isDevice] *)
  existingStatus : string;           (* status of [getPermissionsAsync] *)
  requestedStatus : string;          (* status of [requestPermissionsAsync] *)
  expoPushToken : option string;     (* [data] of [getExpoPushTokenAsync] *)
  nativeOS : NativeOS;
  brand : JSON;
  modelName : JSON;
  osVersion : JSON;
  getPermissionsRejects : bool;      (* [getPermissionsAsync] rejects *)
  requestPermissionsRejects : bool;  (* [requestPermissionsAsync] rejects *)
  setChannelRejects : bool           (* [setNotificationChannelAsync] rejects *)
}.

Record App : Type := mkApp {
  world : World;
  authLoading : bool;                    (* [isLoading] of AuthProvider *)
  stats : JSON;                          (* [stats] of OrdersScreen *)
  providerCalls : list ProviderCall      (* oldest first *)
}.

Definition set_world v (a : App) : App :=
  mkApp v (authLoading a) (stats a) (providerCalls a).
Definition set_authLoading v (a : App) : App :=
  mkApp (world a) v (stats a) (providerCalls a).
Definition set_stats v (a : App) : App :=
  mkApp (world a) (authLoading a) v (providerCalls a).
Definition set_providerCalls v (a : App) : App :=
  mkApp (world a) (authLoading a) (stats a) v.

(** The same monad over the larger state. *)
Definition AM (A : Type) : Type := App -> Res A * App.

Definition app_ret {A} (x : A) : AM A := fun a => (Ok x, a).

Definition app_bind {A B} (m : AM A) (k : A -> AM B) : AM B :=
  fun a =>
    match m a with
    | (Ok x, a1) => k x a1
    | (Throw e, a1) => (Throw e, a1)
    end.

(** A computation of the order screens, run inside the application. *)
Definition lift {A} (m : M A) : AM A :=
  fun a =>
    match m (world a) with
    | (r, w1) => (r, set_world w1 a)
    end.

Definition app_throw {A} (e : JSError) : AM A := fun a => (Throw e, a).

Definition app_modify (f : App -> App) : AM unit := fun a => (Ok tt, f a).

Definition call (c : ProviderCall) : AM unit :=
  app_modify (fun a => set_providerCalls (providerCalls a ++ [c]) a).

(** An awaited provider call that rejects when [rejects] says so. *)
Definition call_or_reject (c : ProviderCall) (rejects : bool) (what : string) : AM unit :=
  fun a =>
    let a1 := set_providerCalls (providerCalls a ++ [c]) a in
    if rejects then (Throw (ProviderError what), a1) else (Ok tt, a1).

(** [try { body } catch (error) { handler error } finally { fin }] where
    both [body] and [handler] may [return] a value. *)
Definition app_try_catch_finally {A} (body : AM A) (handler : JSError -> AM A)
           (fin : AM unit) : AM A :=
  fun a =>
    let after (r : Res A * App) : Res A * App :=
      match fin (snd r) with
      | (Ok _, a2) => (fst r, a2)
      | (Throw e', a2) => (Throw e', a2)
      end in
    match body a with
    | (Ok x, a1) => after (Ok x, a1)
    | (Throw e, a1) => after (handler e a1)
    end.

Definition app_try_catch {A} (body : AM A) (handler : JSError -> AM A) : AM A :=
  app_try_catch_finally body handler (app_ret tt).

Declare Scope app_scope.
Delimit Scope app_scope with app.
Notation "x <- m ;; k" := (app_bind m (fun x => k))
  (at level 100, m at next level, right associativity) : app_scope.
Notation "m ;; k" := (app_bind m (fun _ => k))
  (at level 100, right associativity) : app_scope.
Local Open Scope app_scope.

Definition app_exec {A} (m : AM A) (a : App) : App := snd (m a).
Definition app_result {A} (m : AM A) (a : App) : Res A := fst (m a).

(** ** Push notifications ([src/services/notifications.ts]) *)

(** [Platform.OS] *)
Definition Platform_OS (env : PushEnv) (w : World) : string :=
  match platform w with
  | Web => "web"
  | Native => match nativeOS env with
              | Android => "android"
              | Ios => "ios"
              end
  end.

Definition registerForPushNotificationsAsync (env : PushEnv) : AM (option string) :=
  if negb (isDevice env)
  then lift (emit (ConsoleLog "Push notifications require a physical device")) ;;
       app_ret None
  else
    call_or_reject GetPermissions (getPermissionsRejects env)
                   "getPermissionsAsync" ;;
    finalStatus <- (if negb (String.eqb (existingStatus env) "granted")
                    then call_or_reject RequestPermissions
                                        (requestPermissionsRejects env)
                                        "requestPermissionsAsync" ;;
                         app_ret (requestedStatus env)
                    else app_ret (existingStatus env)) ;;
    if negb (String.eqb finalStatus "granted")
    then lift (emit (ConsoleLog "Push notification permission not granted")) ;;
         app_ret None
    else
      call GetExpoPushToken ;;
      token <- match expoPushToken env with
               | Some t => lift (emit (ConsoleLog "Push token:")) ;; app_ret (Some t)
               | None => lift (emit (ConsoleError "Error getting push token:")) ;;
                         app_ret None
               end ;;
      os <- lift (gets (Platform_OS env)) ;;
      (if String.eqb os "android"
       then call_or_reject (SetNotificationChannel "orders")
                           (setChannelRejects env)
                           "setNotificationChannelAsync"
       else app_ret tt) ;;
      app_ret token.

Definition savePushToken (env : PushEnv) (token : string) : AM unit :=
  app_try_catch
    (os <- lift (gets (Platform_OS env)) ;;
     let deviceInfo := JObj [("brand", brand env); ("model", modelName env);
                             ("os", JStr os); ("osVersion", osVersion env)] in
     _ <- lift (notificationsAPI.registerPushToken token deviceInfo) ;;
     lift (emit (ConsoleLog "Push token registered with backend")))
    (fun _ => lift (emit (ConsoleError "Error saving push token:"))).

(** ** Session, continued ([src/context/AuthContext.tsx]) *)

(** [if (token)] on what [getAuthToken] resolved to. *)
Definition has_token (token : option string) : bool :=
  match token with
  | Some t => negb (String.eqb t "")
  | None => false
  end.

(** The functions below start [setupPushNotifications()] without awaiting
    it. It reads and writes nothing the rest of their body uses and they
    send no request after it, so it is run at the point of the call. *)
Definition setupPushNotifications (env : PushEnv) : AM unit :=
  app_try_catch
    (token <- registerForPushNotificationsAsync env ;;
     match token with
     | Some t => if String.eqb t "" then app_ret tt else savePushToken env t
     | None => app_ret tt
     end)
    (fun _ => lift (emit (ConsoleError "Push notification setup error:"))).

Definition checkAuthStatus (env : PushEnv) : AM unit :=
  app_try_catch_finally
    (token <- lift getAuthToken ;;
     if has_token token
     then userData <- lift authAPI.getCurrentUser ;;
          lift (modify (set_user userData)) ;;
          setupPushNotifications env
     else app_ret tt)
    (fun _ =>
       lift (emit (ConsoleLog "No valid session found")) ;;
       lift removeAuthToken)
    (app_modify (set_authLoading false)).

(** [{ success: boolean; error?: string }] *)
Record LoginResult : Type := mkLoginResult {
  success : bool;
  error : option JSON
}.

(** A value that is [undefined] is kept as [null] in a state cell: both
    are falsy and the cell is only read through [!!user]. *)
Definition or_null (v : option JSON) : JSON :=
  match v with
  | Some x => x
  | None => JNull
  end.

Section Login.

(** What [setItem]/[setItemAsync] do when handed a value that is not a
    string is the business of the storage libraries. *)
Variable setItem_non_string : JSON -> M unit.

(** [setAuthToken(response.access_token)] *)
Definition storeToken (v : JSON) : M unit :=
  match v with
  | JStr t => setAuthToken t
  | _ => setItem_non_string v
  end.

Definition login (env : PushEnv) (email password : string) : AM LoginResult :=
  app_try_catch_finally
    (app_modify (set_authLoading true) ;;
     response <- lift (authAPI_login email password) ;;
     match member response "access_token" with
     | ThrowsTypeError => app_throw (TypeError "Cannot read properties of null")
     | Value access_token =>
         if truthy_opt access_token
         then lift (storeToken (or_null access_token)) ;;
              lift (modify (set_user (or_null (member_opt (Some response) "user")))) ;;
              setupPushNotifications env ;;
              app_ret (mkLoginResult true None)
         else app_ret (mkLoginResult false (Some (JStr "Invalid response from server")))
     end)
    (fun error =>
       app_ret (mkLoginResult false
                  (Some (js_or (error_detail error)
                               (JStr "Login failed. Please check your credentials.")))))
    (app_modify (set_authLoading false)).

End Login.

(** [app/index.tsx] *)
Inductive IndexView : Type :=
| IndexLoading
| Redirect (r : Route).

Definition IndexScreen (a : App) : IndexView :=
  if authLoading a then IndexLoading else Redirect (Index (world a)).

(** The state of a freshly started application on a device: no user, the
    provider still loading, nothing logged. *)
Definition started (w : World) : App :=
  mkApp (set_log [] (set_user JNull w)) true JNull [].

(** ** Stats of the order list screen ([app/orders.tsx]) *)

Definition fetchStats : AM unit :=
  app_try_catch
    (data <- lift ordersAPI.getOrderStats ;;
     app_modify (set_stats data))
    (fun _ => lift (emit (ConsoleError "Error fetching stats:"))).

(** ** Vocabulary of further statements *)

(** Pressing the advance control [n] times, each press being accepted by
    the server: the statuses the resolver leads through. *)
Fixpoint advance_times (n : nat) (s : string) : option string :=
  match n with
  | O => Some s
  | S k => match getNextStatus s with
           | Some t => advance_times k t
           | None => None
           end
  end.

(** The exact sum of the whole quantities of a list of lines. *)
Definition whole_sum (l : list OrderItem) : Z :=
  fold_right (fun item acc =>
                match quantity item with
                | Whole q => q + acc
                | Undetermined => acc
                end) 0 l.

(** Lines the card can count exactly: whole quantities, none negative,
    adding up to at most 2^53. *)
Definition countable (l : list OrderItem) : Prop :=
  Forall (fun i => exists q, quantity i = Whole q /\ 0 <= q) l
  /\ whole_sum l <= MAX_SAFE.

(** Permission is granted in the end: it was already, or the request
    for it went through and was answered so. *)
Definition permission_granted (env : PushEnv) : bool :=
  String.eqb (existingStatus env) "granted"
  || (negb (requestPermissionsRejects env)
      && String.eqb (requestedStatus env) "granted").

(** The provider is asked for a push token: on a physical device whose
    permission could be read and is granted in the end. *)
Definition reaches_token (env : PushEnv) : bool :=
  isDevice env && negb (getPermissionsRejects env) && permission_granted env.

(** One of the three unguarded provider calls rejects. *)
Definition provider_rejects (env : PushEnv) (w : World) : bool :=
  isDevice env
  && (getPermissionsRejects env
      || (negb (String.eqb (existingStatus env) "granted")
          && requestPermissionsRejects env)
      || (reaches_token env
          && String.eqb (Platform_OS env w) "android"
          && setChannelRejects env)).

(** The push token the application gets hold of, if any. *)
Definition obtained_token (env : PushEnv) (w : World) : option string :=
  if reaches_token env && negb (provider_rejects env w)
  then expoPushToken env
  else None.

(** The registration request for token [t] sent from world [w]. *)
Definition push_request (env : PushEnv) (w : World) (t : string) : Request :=
  mkRequest POST "/admin/push-tokens" (bearer (stored_token w)) None
            (Some (JObj [("push_token", JStr t);
                         ("device_info",
                          JObj [("brand", brand env); ("model", modelName env);
                                ("os", JStr (Platform_OS env w));
                                ("osVersion", osVersion env)])])).

(** The requests [setupPushNotifications] adds: the registration of a
    non-empty obtained token, or nothing. *)
Definition push_requests (env : PushEnv) (w : World) : list Request :=
  match obtained_token env w with
  | Some t => if String.eqb t "" then [] else [push_request env w t]
  | None => []
  end.

Definition login_request (w : World) (email password : string) : Request :=
  mkRequest POST "/auth/login" (bearer (stored_token w)) None
            (Some (JObj [("email", JStr email); ("password", JStr password)])).

Definition sample_env : PushEnv :=
  mkPushEnv true "undetermined" "granted" (Some "ExponentPushToken[abc]") Android
            (JStr "Google") (JStr "Pixel 8") (JStr "15") false false false.

(** * Properties *)

(** ** Arrays of strings *)

Lemma indexOf_from_notin l x i : x ∉ l -> indexOf_from l x i = -1.
Proof.
  revert i. induction l as [|y l IH]; intros i Hx; cbn; [reflexivity|].
  apply not_elem_of_cons in Hx as [Hne Hl].
  destruct (String.eqb_spec y x); [congruence|]. apply IH, Hl.
Qed.

Lemma indexOf_from_lookup l x i :
  x ∈ l ->
  i <= indexOf_from l x i
  /\ l !! Z.to_nat (indexOf_from l x i - i) = Some x.
Proof.
  revert i. induction l as [|y l IH]; intros i Hx; [inversion Hx|].
  cbn [indexOf_from]. destruct (String.eqb_spec y x) as [->|Hne].
  - rewrite Z.sub_diag. split; [lia | reflexivity].
  - apply elem_of_cons in Hx as [Heq|Hl]; [congruence|].
    destruct (IH (i + 1) Hl) as [Hle Hlk]. split; [lia|].
    replace (Z.to_nat (indexOf_from l x (i + 1) - i))
      with (S (Z.to_nat (indexOf_from l x (i + 1) - (i + 1)))) by lia.
    exact Hlk.
Qed.

Lemma includes_elem_of l x : includes l x = true <-> x ∈ l.
Proof.
  unfold includes. induction l as [|y l IH]; cbn.
  - split; [discriminate | intros H; inversion H].
  - rewrite orb_true_iff, IH, elem_of_cons, String.eqb_eq. reflexivity.
Qed.

(** Case analysis of a status against every literal it is compared with. *)
Ltac status_cases s :=
  repeat match goal with
         | |- context [String.eqb ?lit s] =>
             destruct (String.eqb_spec lit s) as [<- | ?]
         | |- context [String.eqb s ?lit] =>
             destruct (String.eqb_spec s lit) as [-> | ?]
         end.

(** ** Transition resolver *)

(** The complete table of offered transitions. *)
Lemma getNextStatus_some s next :
  getNextStatus s = Some next ->
  (s, next) ∈ [ ("pending", "confirmed"); ("payment_pending", "paid");
                ("paid", "confirmed"); ("confirmed", "processing");
                ("processing", "shipped"); ("shipped", "delivered") ].
Proof.
  unfold getNextStatus, indexOf, STATUS_FLOW. cbn [indexOf_from].
  status_cases s; cbn; intros H; try discriminate;
    apply (inj Some) in H; subst next; set_solver.
Qed.

(** C1. The resolver offers [confirmed] from [pending] and from [paid],
    nothing from [delivered] and from [cancelled], and [processing] from
    [confirmed]. *)
Theorem getNextStatus_specified_cases :
  getNextStatus "pending" = Some "confirmed"
  /\ getNextStatus "paid" = Some "confirmed"
  /\ getNextStatus "delivered" = None
  /\ getNextStatus "cancelled" = None
  /\ getNextStatus "confirmed" = Some "processing".
Proof. repeat split; reflexivity. Qed.

(** C2. A status that is not in the forward ordering, or is its last
    element [delivered], has no next status; every element other than
    [pending], [paid] and [delivered] advances to the element that follows
    it in the ordering: [payment_pending] to [paid], [confirmed] to
    [processing], [processing] to [shipped], [shipped] to [delivered]. *)
Theorem getNextStatus_follows_ordering :
  (forall current : string,
      current ∉ STATUS_FLOW \/ current = "delivered" ->
      getNextStatus current = None)
  /\ (forall (i : nat) (current : string),
         STATUS_FLOW !! i = Some current ->
         current <> "pending" -> current <> "paid" -> current <> "delivered" ->
         is_Some (getNextStatus current)
         /\ getNextStatus current = STATUS_FLOW !! S i)
  /\ getNextStatus "payment_pending" = Some "paid"
  /\ getNextStatus "confirmed" = Some "processing"
  /\ getNextStatus "processing" = Some "shipped"
  /\ getNextStatus "shipped" = Some "delivered".
Proof.
  split; [|split; [|repeat split; reflexivity]].
  - intros current [Hnot | ->]; [|reflexivity].
    unfold getNextStatus, indexOf. rewrite indexOf_from_notin by exact Hnot.
    reflexivity.
  - intros i current Hi Hp Hpaid Hd.
    do 7 (destruct i as [|i]; [cbn in Hi; apply (inj Some) in Hi; subst current;
                               first [congruence | split; [eexists|]; reflexivity]|]).
    cbn in Hi. discriminate.
Qed.

Lemma getNextStatus_follows_ordering_witness :
  getNextStatus "refunded" = None
  /\ getNextStatus "processing" = STATUS_FLOW !! 5%nat.
Proof.
  split.
  - apply (proj1 getNextStatus_follows_ordering "refunded").
    left. unfold STATUS_FLOW. intros H.
    repeat (apply elem_of_cons in H as [H|H]; [discriminate H|]).
    inversion H.
  - apply (proj1 (proj2 getNextStatus_follows_ordering) 4%nat "processing");
      [reflexivity | discriminate | discriminate | discriminate].
Defined.

(** C10. The resolver never offers [pending], [payment_pending] or
    [cancelled]; whatever it offers lies strictly later in the forward
    ordering than the status it was asked about. *)
Theorem getNextStatus_moves_forward (s next : string) :
  getNextStatus s = Some next ->
  (next ∉ ["pending"; "payment_pending"; "cancelled"])
  /\ exists i j : Z,
      flow_index s = Some i /\ flow_index next = Some j /\ i < j.
Proof.
  intros H. apply getNextStatus_some in H.
  repeat (apply elem_of_cons in H as [H|H];
          [apply pair_equal_spec in H as [-> ->]; split;
           [ intros Hin;
             repeat (apply elem_of_cons in Hin as [Hin|Hin]; [discriminate Hin|]);
             inversion Hin
           | eexists; eexists; split; [reflexivity|]; split; reflexivity ]|]).
  inversion H.
Qed.

Lemma getNextStatus_moves_forward_witness :
  ("confirmed" ∉ ["pending"; "payment_pending"; "cancelled"])
  /\ exists i j : Z,
      flow_index "paid" = Some i /\ flow_index "confirmed" = Some j /\ i < j.
Proof. apply (getNextStatus_moves_forward "paid" "confirmed"). reflexivity. Defined.

(** ** Status registry *)

Lemma ORDER_STATUS_CONFIG_unknown (status : string) :
  status ∉ known_statuses -> ORDER_STATUS_CONFIG !! status = None.
Proof.
  unfold known_statuses, ORDER_STATUS_CONFIG. intros H.
  repeat (apply not_elem_of_cons in H as [? H]).
  repeat (rewrite lookup_insert_ne by congruence).
  apply lookup_empty.
Qed.

(** The eight known codes resolve to their fixed label and color. *)
Lemma getStatusConfig_known :
  getStatusConfig "pending"
    = Config (mkConfig "Pending" colors.pending "rgba(245, 158, 11, 0.15)")
  /\ getStatusConfig "payment_pending"
    = Config (mkConfig "Payment Pending" colors.paymentPending "rgba(249, 115, 22, 0.15)")
  /\ getStatusConfig "paid"
    = Config (mkConfig "Paid" colors.paid "rgba(16, 185, 129, 0.15)")
  /\ getStatusConfig "confirmed"
    = Config (mkConfig "Confirmed" colors.confirmed "rgba(59, 130, 246, 0.15)")
  /\ getStatusConfig "processing"
    = Config (mkConfig "Processing" colors.processing "rgba(139, 92, 246, 0.15)")
  /\ getStatusConfig "shipped"
    = Config (mkConfig "Shipped" colors.shipped "rgba(99, 102, 241, 0.15)")
  /\ getStatusConfig "delivered"
    = Config (mkConfig "Delivered" colors.delivered "rgba(5, 150, 105, 0.15)")
  /\ getStatusConfig "cancelled"
    = Config (mkConfig "Cancelled" colors.cancelled "rgba(239, 68, 68, 0.15)").
Proof. repeat split; vm_compute; reflexivity. Qed.

(** The function is total, and away from the names [Object.prototype]
    defines an unknown status gets the fallback built from the raw
    string. *)
Lemma getStatusConfig_fallback (status : string) :
  status ∉ known_statuses -> inherited status = false ->
  getStatusConfig status = Config (mkConfig status colors.textMuted colors.surface).
Proof.
  intros Hk Hi. unfold getStatusConfig, config_get.
  rewrite (ORDER_STATUS_CONFIG_unknown status Hk), Hi. reflexivity.
Qed.

Lemma getStatusConfig_inherited (status : string) :
  inherited status = true ->
  getStatusConfig status = PrototypeMember status.
Proof.
  intros Hi. unfold getStatusConfig, config_get.
  assert (Hk : status ∉ known_statuses).
  { intros Hin. unfold known_statuses in Hin.
    repeat (apply elem_of_cons in Hin as [->|Hin]; [discriminate Hi|]).
    inversion Hin. }
  rewrite (ORDER_STATUS_CONFIG_unknown status Hk), Hi. reflexivity.
Qed.

(** C8, at the input [constructor]. The string is none of the eight known
    codes, yet the registry does not answer with the fallback: the bracket
    access finds the member of that name on [Object.prototype], which is
    truthy, so it is returned as the configuration and its label reads
    [undefined] instead of the raw status. *)
Theorem getStatusConfig_constructor :
  ("constructor" ∉ known_statuses)
  /\ getStatusConfig "constructor" = PrototypeMember "constructor"
  /\ label_of (getStatusConfig "constructor") = None
  /\ color_of (getStatusConfig "constructor") = None
  /\ ~ resolves_to_fallback "constructor".
Proof.
  assert (Hk : "constructor" ∉ known_statuses).
  { unfold known_statuses. intros Hin.
    repeat (apply elem_of_cons in Hin as [Hin|Hin]; [discriminate Hin|]).
    inversion Hin. }
  split; [exact Hk|].
  rewrite (getStatusConfig_inherited "constructor") by reflexivity.
  repeat split. intros H. destruct (H Hk) as [Hl _]. discriminate Hl.
Qed.

(** ** Actions offered on the detail screen *)

Lemma OrderDetailScreen_loaded (w : World) (fs : list (string * JSON)) :
  isLoading w = false -> order w = JObj fs ->
  OrderDetailScreen w = OrderMarkup (JObj fs).
Proof. intros Hl Ho. unfold OrderDetailScreen. rewrite Hl, Ho. reflexivity. Qed.

Lemma cancelControl_iff (s : string) :
  cancelControl (render_actions (Some s)) = true
  <-> s ∉ ["cancelled"; "delivered"; "shipped"].
Proof.
  unfold render_actions, status_is, includes. cbn [existsb].
  status_cases s; cbn; split; intros H; try discriminate; try reflexivity;
    try (exfalso; apply H; set_solver).
  intros Hin.
  repeat (apply elem_of_cons in Hin as [Hin|Hin]; [congruence|]).
  inversion Hin.
Qed.

(** C3. Once the detail screen is past its two early returns, the action
    bar it builds for an order whose [status] field is the string [s]
    holds the Cancel control exactly when [s] is none of [cancelled],
    [delivered], [shipped]: it does for orders that are [pending], [paid]
    or [processing] and does not for a [shipped] one. The rule does not
    follow the advance control: each of the four combinations of the two
    controls occurs. *)
Theorem cancel_offered_iff_open :
  (forall (w : World) (fs : list (string * JSON)) (s : string),
      isLoading w = false -> order w = JObj fs ->
      field "status" fs = Some (JStr s) ->
      OrderDetailScreen w = OrderMarkup (JObj fs)
      /\ (cancelControl (action_bar (JObj fs)) = true
          <-> s ∉ ["cancelled"; "delivered"; "shipped"]))
  /\ cancelControl (action_bar (sample_order "pending")) = true
  /\ cancelControl (action_bar (sample_order "paid")) = true
  /\ cancelControl (action_bar (sample_order "processing")) = true
  /\ cancelControl (action_bar (sample_order "shipped")) = false
  /\ action_bar (sample_order "pending") = mkActions true (Some "confirmed")
  /\ action_bar (sample_order "on_hold") = mkActions true None
  /\ action_bar (sample_order "shipped") = mkActions false (Some "delivered")
  /\ action_bar (sample_order "delivered") = mkActions false None.
Proof.
  split; [|repeat split; reflexivity].
  intros w fs s Hl Ho Hs.
  split; [apply OrderDetailScreen_loaded; assumption|].
  unfold action_bar, status_text. cbn [member_opt]. rewrite Hs.
  apply cancelControl_iff.
Qed.

Lemma cancel_offered_iff_open_witness :
  OrderDetailScreen (phone []) = OrderMarkup (sample_order "pending")
  /\ (cancelControl (action_bar (sample_order "pending")) = true
      <-> "pending" ∉ ["cancelled"; "delivered"; "shipped"]).
Proof.
  apply (proj1 cancel_offered_iff_open (phone [])
               [("id", JStr "o1"); ("order_number", JStr "1001");
                ("status", JStr "pending")]
               "pending"); reflexivity.
Defined.

(** ** Running the asynchronous code *)

(** Unfolds the monadic code down to the world it produces. *)
Ltac run_js :=
  unfold exec, result, perform, handleUpdateStatus, handleCancelOrder, fetchOrder,
    fetchOrders, fetchOrders_of, logout, logout_with, list_payload, try_catch,
    try_catch_finally,
    ordersAPI.updateOrderStatus, ordersAPI.cancelOrder, ordersAPI.getOrder,
    ordersAPI.getOrders, Legacy.updateOrderStatus, api_call, on_rejected,
    next_outcome, getAuthToken, removeAuthToken, emit, modify, gets, bind, ret, throw;
  cbn.

(** Brings the effect lists of both sides to the same shape. *)
Ltac same_effects :=
  unfold requests, alerts; rewrite ?omap_app; cbn;
  rewrite ?app_nil_r, <- ?app_assoc; cbn; reflexivity.

(** One call through [api], by the answer of the transport. *)
Lemma api_call_run m u ps bd w :
  api_call m u ps bd w =
    let r := mkRequest m u (bearer (stored_token w)) ps bd in
    match net w with
    | Resp st d :: rest =>
        if is2xx st then (Ok d, sent r rest w)
        else (Throw (AxiosError (Some (st, d))),
              if st =? 401 then evict (sent r rest w) else sent r rest w)
    | NoResp :: rest => (Throw (AxiosError None), sent r rest w)
    | [] => (Throw (AxiosError None), sent r [] w)
    end.
Proof.
  destruct w as [p a s n lg u0 o il iu os ll ir sel].
  destruct p; cbn; (destruct n as [|[st d|] rest]; cbn; [reflexivity| |reflexivity]);
    destruct (is2xx st); cbn; try reflexivity;
    unfold on_rejected, bind; destruct (st =? 401); reflexivity.
Qed.

Lemma stored_token_evict w : stored_token (evict w) = None.
Proof.
  destruct w as [p a s n lg u0 o il iu os ll ir sel].
  destruct p; cbn; apply lookup_delete_eq.
Qed.

(** ** Order sync protocol *)

(** C4, as the code has it. After a successful advance or cancel the
    client sends the re-fetch of that order at once. When the re-fetch
    succeeds, the displayed order is exactly its payload and the success
    notice follows; when the re-fetch fails, the load-failure notice is
    shown, the order held before the mutation stays displayed, and the
    success notice still follows. *)
Theorem refetch_after_mutation (w : World) (id : string) (mut : Mutation)
        (st : Z) (d : JSON) (o' : Outcome) (rest : list Outcome) :
  net w = Resp st d :: o' :: rest -> is2xx st = true ->
  let w' := exec (perform id mut) w in
  requests (log w')
    = (requests (log w) ++ [mutation_request id mut w; refetch_request id w])%list
  /\ net w' = rest
  /\ isLoading w' = false
  /\ isUpdating w' = false
  /\ (forall st' d', o' = Resp st' d' -> is2xx st' = true ->
        order w' = d'
        /\ alerts (log w') = (alerts (log w) ++ [dialog mut; success_notice mut])%list)
  /\ (forall e, failure_of o' = Some e ->
        order w' = order w
        /\ alerts (log w')
           = (alerts (log w) ++ [dialog mut; load_failure_notice; success_notice mut])%list).
Proof.
  intros Hn Hst.
  destruct w as [p a s n lg u0 o0 il iu os ll ir sel]. cbn in Hn. subst n.
  destruct mut as [ns|]; destruct p; run_js; rewrite Hst; cbn;
    (destruct o' as [st' d'|]; cbn;
     [destruct (is2xx st') eqn:E2; cbn; [|destruct (st' =? 401); cbn]|]);
    (split; [same_effects|]); repeat (split; [reflexivity|]);
    (split; [intros st2 d2 Ho E | intros e He]);
    try discriminate;
    try (injection Ho as -> ->); try congruence;
    (split; [reflexivity | same_effects]).
Qed.

Lemma refetch_after_mutation_witness :
  order (exec (perform "o1" (Advance "confirmed"))
              (phone [Resp 200 (sample_order "confirmed");
                      Resp 200 (sample_order "confirmed")]))
  = sample_order "confirmed".
Proof.
  destruct (refetch_after_mutation
              (phone [Resp 200 (sample_order "confirmed");
                      Resp 200 (sample_order "confirmed")])
              "o1" (Advance "confirmed") 200 (sample_order "confirmed")
              (Resp 200 (sample_order "confirmed")) [] eq_refl eq_refl)
    as (_ & _ & _ & _ & Hfresh & _).
  exact (proj1 (Hfresh 200 (sample_order "confirmed") eq_refl eq_refl)).
Defined.

(** C4, as stated, fails: the advance to [confirmed] succeeds, the
    re-fetch is answered with a 500, and the screen keeps showing the
    order it held before the mutation (still [pending]) under a success
    notice. *)
Lemma refetch_failure_shows_stale_order :
  let w := phone [Resp 200 (sample_order "confirmed");
                  Resp 500 (JObj [("detail", JStr "Internal Server Error")])] in
  let w' := exec (perform "o1" (Advance "confirmed")) w in
  ~ displays_refetched_payload "o1" (Advance "confirmed") w
  /\ order w' = sample_order "pending"
  /\ alerts (log w')
     = [ dialog (Advance "confirmed"); load_failure_notice;
         success_notice (Advance "confirmed") ].
Proof.
  cbv zeta. split; [|split; vm_compute; reflexivity].
  intros H. destruct (H 200 _ _ eq_refl eq_refl) as (st' & d' & Hh & Ho).
  cbn in Hh. injection Hh as <- <-. vm_compute in Ho. discriminate Ho.
Qed.



(** ** List response decoding *)

(** A bare array is displayed as it is. *)
Lemma fetchOrders_bare_array (w : World) (showLoader : bool) (st : Z)
      (l : list JSON) (rest : list Outcome) :
  net w = Resp st (JArr l) :: rest -> is2xx st = true ->
  let w' := exec (fetchOrders showLoader) w in
  orders w' = JArr l /\ alerts (log w') = alerts (log w).
Proof.
  intros Hn Hst.
  destruct w as [p a s n lg u0 o0 il iu os ll ir sel]. cbn in Hn. subst n.
  destruct p, showLoader; run_js; rewrite Hst; cbn; (split; [reflexivity | same_effects]).
Qed.

(** An object whose [orders] field holds an array displays that array, so
    both shapes with the same contents display the same list. *)
Lemma fetchOrders_wrapped_array (w : World) (showLoader : bool) (st : Z)
      (fs : list (string * JSON)) (l : list JSON) (rest : list Outcome) :
  net w = Resp st (JObj fs) :: rest -> is2xx st = true ->
  field "orders" fs = Some (JArr l) ->
  let w' := exec (fetchOrders showLoader) w in
  orders w' = JArr l /\ alerts (log w') = alerts (log w).
Proof.
  intros Hn Hst Hf.
  destruct w as [p a s n lg u0 o0 il iu os ll ir sel]. cbn in Hn. subst n.
  destruct p, showLoader; run_js; rewrite Hst; cbn; rewrite Hf; cbn;
    (split; [reflexivity | same_effects]).
Qed.

(** A value other than [null] whose [orders] property is missing or falsy
    (an object without the field, a number, a string, a boolean) displays
    the empty list, silently. *)
Lemma fetchOrders_no_orders (w : World) (showLoader : bool) (st : Z)
      (data : JSON) (o : option JSON) (rest : list Outcome) :
  net w = Resp st data :: rest -> is2xx st = true ->
  isArray data = false -> member data "orders" = Value o -> truthy_opt o = false ->
  let w' := exec (fetchOrders showLoader) w in
  orders w' = JArr [] /\ alerts (log w') = alerts (log w).
Proof.
  intros Hn Hst Ha Hm Ht.
  destruct w as [p a s n lg u0 o0 il iu os ll ir sel]. cbn in Hn. subst n.
  destruct p, showLoader; run_js; rewrite Hst; cbn; rewrite Ha, Hm; cbn;
    (destruct o as [v|]; cbn in Ht |- *; rewrite ?Ht; cbn);
    (split; [reflexivity | same_effects]).
Qed.

(** C6, at the response body [null] (status 200) received while a list
    is displayed. [null] is neither an array nor an object with an
    [orders] field, but reading [data.orders] from it throws; the
    exception is swallowed by the [catch] of [fetchOrders] without an
    alert and [setOrders] is never reached, so the list displayed before
    stays on screen instead of the empty list. *)
Theorem fetchOrders_null_payload :
  let w := phone [Resp 200 JNull] in
  let w' := exec (fetchOrders true) w in
  other_shape JNull
  /\ orders w' = JArr [sample_order "pending"]
  /\ orders w' <> JArr []
  /\ alerts (log w') = []
  /\ ~ other_shape_empties_list JNull w.
Proof.
  cbv zeta.
  assert (Hshape : other_shape JNull).
  { split; [reflexivity | intros l; discriminate]. }
  split; [exact Hshape|].
  split; [vm_compute; reflexivity|].
  split; [vm_compute; discriminate|].
  split; [vm_compute; reflexivity|].
  intros H. destruct (H 200 [] true Hshape eq_refl eq_refl) as [Ho _].
  vm_compute in Ho. discriminate Ho.
Qed.

(** ** Credential eviction *)

(** C7, as the code has it. Whatever call goes through the transport, a
    401 answer makes the response interceptor delete the stored bearer
    token before the error reaches the caller; the next request therefore
    carries no [Authorization] header. The interceptor does not touch the
    signed-in user the screens are rendered from; of the order screens
    only the list fetch resets it, by calling [logout] on a 401. *)
Theorem unauthorized_evicts_token (w : World) (m : Method) (u : string)
        (ps bd : option JSON) (d : JSON) (rest : list Outcome) :
  net w = Resp 401 d :: rest ->
  let w' := exec (api_call m u ps bd) w in
  result (api_call m u ps bd) w = Throw (AxiosError (Some (401, d)))
  /\ stored_token w' = None
  /\ user w' = user w
  /\ (forall m2 u2 ps2 bd2,
        requests (log (exec (api_call m2 u2 ps2 bd2) w'))
        = (requests (log w') ++ [mkRequest m2 u2 None ps2 bd2])%list)
  /\ (forall showLoader,
        let w2 := exec (fetchOrders showLoader) w in
        stored_token w2 = None /\ isAuthenticated w2 = false).
Proof.
  intros Hn. cbv zeta. unfold exec, result.
  rewrite (api_call_run m u ps bd w), Hn. cbn.
  split; [reflexivity|].
  split; [apply stored_token_evict|].
  split; [destruct w as [[] ? ? ? ? ? ? ? ? ? ? ? ?]; reflexivity|].
  split.
  - intros m2 u2 ps2 bd2. rewrite api_call_run.
    rewrite stored_token_evict. cbn.
    destruct (net (evict _)) as [|[st2 d2|] rest2]; cbn;
      [| destruct (is2xx st2); [|destruct (st2 =? 401)] |];
      destruct w as [[] ? ? ? ? ? ? ? ? ? ? ? ?]; cbn; same_effects.
  - intros showLoader.
    destruct w as [p a s n lg u0 o0 il iu os ll ir sel]. cbn in Hn. subst n.
    destruct p, showLoader; run_js;
      (split; [rewrite delete_delete_eq; apply lookup_delete_eq | reflexivity]).
Qed.

Lemma unauthorized_evicts_token_witness :
  stored_token
    (exec (api_call GET "/orders/o1" None None)
          (phone [Resp 401 (JObj [("detail", JStr "Could not validate credentials")])]))
  = None.
Proof.
  exact (proj1 (proj2 (unauthorized_evicts_token
                         (phone [Resp 401 (JObj [("detail", JStr "Could not validate credentials")])])
                         GET "/orders/o1" None None
                         (JObj [("detail", JStr "Could not validate credentials")]) []
                         eq_refl))).
Defined.

(** C7, as stated, fails: the detail screen's fetch is answered with a
    401; the token is deleted, but the signed-in user is still set, so
    the next render is the authenticated one. *)
Lemma unauthorized_keeps_user_signed_in :
  let w := phone [Resp 401 (JObj [("detail", JStr "Could not validate credentials")])] in
  let w' := exec (fetchOrder "o1") w in
  ~ evicts_and_signs_out GET "/orders/o1" None None w
  /\ stored_token w' = None
  /\ isAuthenticated w' = true
  /\ Index w' = ToOrders.
Proof.
  cbv zeta. split; [|repeat split; vm_compute; reflexivity].
  intros H. destruct (H _ _ eq_refl) as [_ Hs].
  vm_compute in Hs. discriminate Hs.
Qed.

(** ** Endpoints of the mutations *)

(** The requests of an accepted mutation, by the answers of the
    transport: the mutation alone when it is rejected, followed by the
    re-fetch when it succeeds. *)
Ltac handler_requests id p a s n lg u0 o0 il iu os ll ir sel :=
  let st := fresh "st" in
  let d := fresh "d" in
  let n1 := fresh "n" in
  let E2 := fresh "E" in
  destruct n as [|[st d|] n1];
    [ exists []
    | destruct (is2xx st) eqn:E2;
      [ exists [mkRequest GET ("/orders/" ++ id)
                          (bearer (stored_token
                                     (mkWorld p a s n1 lg u0 o0 il iu os ll ir sel)))
                          None None]
      | exists [] ]
    | exists [] ];
    (split; [|repeat constructor]);
    destruct p; run_js; rewrite ?E2; cbn;
    try (let st1 := fresh "st" in
         destruct n1 as [|[st1 ?|] ?]; cbn;
         [| destruct (is2xx st1); cbn; [|destruct (st1 =? 401); cbn] |]);
    try (destruct (st =? 401); cbn);
    same_effects.

(** C9. [updateOrderStatus] sends one PUT to [/admin/orders/{id}/status]
    with the target status in the body, and [cancelOrder] one POST to
    [/admin/orders/{id}/cancel] with the reason; the retired revision of
    the service sent the status with PATCH to the same path. On the
    detail screen an accepted advance or cancel sends that request first
    and nothing but a GET after it; a dismissed dialog sends nothing. *)
Theorem mutation_endpoints (w : World) (id status : string) (reason : option string) :
  requests (log (exec (ordersAPI.updateOrderStatus id status) w))
  = (requests (log w)
       ++ [mkRequest PUT ("/admin/orders/" ++ id ++ "/status") (bearer (stored_token w))
                     None (Some (JObj [("status", JStr status)]))])%list
  /\ requests (log (exec (ordersAPI.cancelOrder id reason) w))
     = (requests (log w)
          ++ [mkRequest POST ("/admin/orders/" ++ id ++ "/cancel") (bearer (stored_token w))
                        None
                        (Some (JObj match reason with
                                    | Some r => [("reason", JStr r)]
                                    | None => []
                                    end))])%list
  /\ requests (log (exec (Legacy.updateOrderStatus id status) w))
     = (requests (log w)
          ++ [mkRequest PATCH ("/admin/orders/" ++ id ++ "/status") (bearer (stored_token w))
                        None (Some (JObj [("status", JStr status)]))])%list
  /\ (exists tail,
         requests (log (exec (handleUpdateStatus id status Accept) w))
         = (requests (log w)
              ++ mkRequest PUT ("/admin/orders/" ++ id ++ "/status")
                           (bearer (stored_token w))
                           None (Some (JObj [("status", JStr status)]))
              :: tail)%list
         /\ Forall (fun r => method r = GET) tail)
  /\ (exists tail,
         requests (log (exec (handleCancelOrder id Accept) w))
         = (requests (log w)
              ++ mkRequest POST ("/admin/orders/" ++ id ++ "/cancel")
                           (bearer (stored_token w))
                           None
                           (Some (JObj [("reason", JStr "Cancelled by admin from mobile app")]))
              :: tail)%list
         /\ Forall (fun r => method r = GET) tail)
  /\ requests (log (exec (handleUpdateStatus id status Dismiss) w)) = requests (log w)
  /\ requests (log (exec (handleCancelOrder id Dismiss) w)) = requests (log w).
Proof.
  assert (Hcall : forall m u ps bd,
             requests (log (exec (api_call m u ps bd) w))
             = (requests (log w)
                  ++ [mkRequest m u (bearer (stored_token w)) ps bd])%list).
  { intros m u ps bd. unfold exec. rewrite api_call_run. cbn.
    destruct (net w) as [|[st d|] rest]; cbn;
      [| destruct (is2xx st); [|destruct (st =? 401)] |];
      destruct w as [[] ? ? ? ? ? ? ? ? ? ? ? ?]; cbn; same_effects. }
  split; [apply Hcall|]. split; [apply Hcall|]. split; [apply Hcall|].
  clear Hcall.
  destruct w as [p a s n lg u0 o0 il iu os ll ir sel].
  split; [|split; [|split; destruct p; run_js; same_effects]].
  - handler_requests id p a s n lg u0 o0 il iu os ll ir sel.
  - handler_requests id p a s n lg u0 o0 il iu os ll ir sel.
Qed.

#[local] Set Warnings "-clear-no-such-hyp".

(** * Further properties *)

(** ** Resolver and registry together *)

(** X1. Whatever status the resolver offers is one of the eight known
    codes and resolves to a label/color record of the registry, so the
    text of the advance button and of its confirmation dialog is always
    defined. *)
Theorem advance_target_is_known (s next : string) :
  getNextStatus s = Some next ->
  next ∈ known_statuses
  /\ exists c : StatusConfig,
      getStatusConfig next = Config c
      /\ ORDER_STATUS_CONFIG !! next = Some c.
Proof.
  intros H. apply getNextStatus_some in H.
  repeat (apply elem_of_cons in H as [H|H];
          [apply pair_equal_spec in H as [-> ->];
           split; [set_solver | eexists; split; vm_compute; reflexivity]|]).
  inversion H.
Qed.

Lemma advance_target_is_known_witness :
  "shipped" ∈ known_statuses
  /\ exists c : StatusConfig,
      getStatusConfig "shipped" = Config c
      /\ ORDER_STATUS_CONFIG !! "shipped" = Some c.
Proof. apply (advance_target_is_known "processing" "shipped"). reflexivity. Defined.

(** X2. Following the offered advances from any status of the forward
    ordering ends at [delivered] after at most five presses (four from [pending],
    which skips the payment states), and from no status at all can the
    advance control be pressed six times: the resolver has no cycle. *)
Theorem advance_chain_ends_at_delivered :
  (forall s : string,
      s ∈ STATUS_FLOW ->
      exists n : nat, (n <= 5)%nat /\ advance_times n s = Some "delivered")
  /\ advance_times 4 "pending" = Some "delivered"
  /\ (forall s : string, advance_times 6 s = None).
Proof.
  split; [|split; [reflexivity|]].
  - intros s Hs. unfold STATUS_FLOW in Hs.
    repeat (apply elem_of_cons in Hs as [->|Hs]).
    + exists 4%nat. split; [lia | reflexivity].
    + exists 5%nat. split; [lia | reflexivity].
    + exists 4%nat. split; [lia | reflexivity].
    + exists 3%nat. split; [lia | reflexivity].
    + exists 2%nat. split; [lia | reflexivity].
    + exists 1%nat. split; [lia | reflexivity].
    + exists 0%nat. split; [lia | reflexivity].
    + inversion Hs.
  - intros s. cbn [advance_times].
    destruct (getNextStatus s) as [t|] eqn:E; [|reflexivity].
    apply getNextStatus_some in E.
    repeat (apply elem_of_cons in E as [E|E];
            [apply pair_equal_spec in E as [-> ->]; reflexivity|]).
    inversion E.
Qed.

Lemma advance_chain_ends_at_delivered_witness :
  exists n : nat, (n <= 5)%nat /\ advance_times n "paid" = Some "delivered".
Proof.
  apply (proj1 advance_chain_ends_at_delivered "paid").
  unfold STATUS_FLOW. repeat constructor.
Defined.

(** X3. On the detail screen the advance control is exactly what the
    resolver answers: the guard around the action bar never hides an
    offered advance. The bar is empty exactly for [cancelled] and
    [delivered], and an order whose status is not a string gets the
    Cancel control alone. *)
Theorem action_bar_contents (s : string) :
  advanceControl (render_actions (Some s)) = getNextStatus s
  /\ (render_actions (Some s) = mkActions false None
      <-> s = "cancelled" \/ s = "delivered")
  /\ render_actions None = mkActions true None.
Proof.
  split; [|split; [|reflexivity]].
  - destruct (getNextStatus s) as [n|] eqn:E.
    + apply getNextStatus_some in E.
      repeat (apply elem_of_cons in E as [E|E];
              [apply pair_equal_spec in E as [-> ->]; reflexivity|]).
      inversion E.
    + unfold render_actions. rewrite E.
      destruct (_ && _); reflexivity.
  - unfold render_actions, status_is, includes. cbn [existsb].
    destruct (getNextStatus s) as [n|] eqn:E.
    + apply getNextStatus_some in E.
      repeat (apply elem_of_cons in E as [E|E];
              [apply pair_equal_spec in E as [-> ->]; cbn;
               split; [discriminate | intros [?|?]; discriminate]|]).
      inversion E.
    + status_cases s; cbn; split; intros H;
        try discriminate; try reflexivity; try tauto;
        destruct H; congruence.
Qed.

(** X4. The label the registry hands back is missing exactly for the
    property names of [Object.prototype]; for every other string it is
    defined, and for a string that is neither such a name nor a known
    code it is the string itself, on the neutral colors. *)
Theorem status_label_defined (status : string) :
  (label_of (getStatusConfig status) = None <-> inherited status = true)
  /\ (status ∉ known_statuses -> inherited status = false ->
      getStatusConfig status
      = Config (mkConfig status colors.textMuted colors.surface)).
Proof.
  split; [|apply getStatusConfig_fallback].
  destruct (inherited status) eqn:Hi.
  - rewrite (getStatusConfig_inherited status Hi). split; reflexivity.
  - split; [|discriminate].
    unfold getStatusConfig, config_get. rewrite Hi.
    destruct (ORDER_STATUS_CONFIG !! status); discriminate.
Qed.

Lemma status_label_defined_witness :
  getStatusConfig "refunded"
  = Config (mkConfig "refunded" colors.textMuted colors.surface).
Proof.
  apply (proj2 (status_label_defined "refunded")); [|reflexivity].
  unfold known_statuses. intros Hin.
  repeat (apply elem_of_cons in Hin as [Hin|Hin]; [discriminate Hin|]).
  inversion Hin.
Defined.

(** ** Token storage and the request interceptor *)

(** X5. The token store is a round trip on either platform: what
    [setAuthToken] wrote is what [getAuthToken] reads, a second write
    replaces the first, and after [removeAuthToken] nothing is read. *)
Theorem token_round_trip (w : World) (t t2 : string) :
  result getAuthToken (exec (setAuthToken t) w) = Ok (Some t)
  /\ result getAuthToken (exec (setAuthToken t2) (exec (setAuthToken t) w)) = Ok (Some t2)
  /\ result getAuthToken (exec removeAuthToken (exec (setAuthToken t) w)) = Ok None
  /\ exec getAuthToken w = w.
Proof.
  destruct w as [p a s n lg u0 o il iu os ll ir sel].
  destruct p; cbn; repeat split;
    rewrite ?lookup_insert_eq, ?lookup_delete_eq; reflexivity.
Qed.

(** X6. Writing or removing the token touches one key of one store: every
    other key of both stores keeps its value, and the store of the other
    platform is not written at all. *)
Theorem token_writes_are_local (w : World) (t k : string) :
  k <> TOKEN_KEY ->
  let w1 := exec (setAuthToken t) w in
  let w2 := exec removeAuthToken w in
  asyncStorage w1 !! k = asyncStorage w !! k
  /\ secureStore w1 !! k = secureStore w !! k
  /\ asyncStorage w2 !! k = asyncStorage w !! k
  /\ secureStore w2 !! k = secureStore w !! k
  /\ (platform w = Native -> asyncStorage w1 = asyncStorage w /\ asyncStorage w2 = asyncStorage w)
  /\ (platform w = Web -> secureStore w1 = secureStore w /\ secureStore w2 = secureStore w).
Proof.
  intros Hk. destruct w as [p a s n lg u0 o il iu os ll ir sel].
  destruct p; cbn; repeat split;
    rewrite ?lookup_insert_ne, ?lookup_delete_ne by congruence;
    try reflexivity; discriminate.
Qed.

Lemma token_writes_are_local_witness :
  secureStore (exec removeAuthToken
                    (set_secureStore (insert "theme" "dark") (phone []))) !! "theme"
  = Some "dark".
Proof.
  destruct (token_writes_are_local
              (set_secureStore (insert "theme" "dark") (phone [])) "t1" "theme")
    as (_ & _ & _ & H & _); [discriminate|].
  cbv zeta in H. rewrite H. reflexivity.
Defined.

(** X7. A request carries [Authorization: Bearer t] exactly when a
    non-empty token [t] is stored at the moment it is sent: right after
    [setAuthToken t] it does, right after [removeAuthToken] it carries no
    such header, and so it does when the stored token is the empty
    string. *)
Theorem authorization_header_follows_store (w : World) (t : string)
        (m : Method) (u : string) (ps bd : option JSON) :
  t <> "" ->
  requests (log (exec (api_call m u ps bd) (exec (setAuthToken t) w)))
  = (requests (log w) ++ [mkRequest m u (Some ("Bearer " ++ t)%string) ps bd])%list
  /\ requests (log (exec (api_call m u ps bd) (exec removeAuthToken w)))
     = (requests (log w) ++ [mkRequest m u None ps bd])%list
  /\ requests (log (exec (api_call m u ps bd) (exec (setAuthToken "") w)))
     = (requests (log w) ++ [mkRequest m u None ps bd])%list.
Proof.
  intros Ht.
  assert (Hcall : forall w0,
             requests (log (exec (api_call m u ps bd) w0))
             = (requests (log w0)
                  ++ [mkRequest m u (bearer (stored_token w0)) ps bd])%list).
  { intros w0. unfold exec. rewrite api_call_run. cbn.
    destruct (net w0) as [|[st d|] rest]; cbn;
      [| destruct (is2xx st); [|destruct (st =? 401)] |];
      destruct w0 as [[] ? ? ? ? ? ? ? ? ? ? ? ?]; cbn; same_effects. }
  rewrite !Hcall.
  destruct w as [p a s n lg u0 o il iu os ll ir sel].
  destruct p; cbn; rewrite ?lookup_insert_eq, ?lookup_delete_eq; cbn;
    destruct (String.eqb_spec t ""); try congruence; repeat split; reflexivity.
Qed.

Lemma authorization_header_follows_store_witness :
  requests (log (exec (api_call GET "/auth/me" None None)
                      (exec (setAuthToken "t9") (phone []))))
  = [mkRequest GET "/auth/me" (Some "Bearer t9") None None].
Proof.
  exact (proj1 (authorization_header_follows_store
                  (phone []) "t9" GET "/auth/me" None None
                  ltac:(discriminate))).
Defined.

(** X8. Only a 401 evicts: a call answered with anything else (success,
    another error status, no answer) leaves both stores as they were,
    while a 401 leaves no token. And no call, whatever its answer,
    changes the signed-in user or the state of a screen. *)
Theorem only_401_evicts (w : World) (m : Method) (u : string)
        (ps bd : option JSON) :
  let w' := exec (api_call m u ps bd) w in
  (user w' = user w
   /\ order w' = order w
   /\ isLoading w' = isLoading w
   /\ isUpdating w' = isUpdating w
   /\ orders w' = orders w
   /\ listLoading w' = listLoading w
   /\ isRefreshing w' = isRefreshing w
   /\ selectedStatus w' = selectedStatus w)
  /\ ((forall d, head (net w) <> Some (Resp 401 d)) ->
      asyncStorage w' = asyncStorage w
      /\ secureStore w' = secureStore w
      /\ stored_token w' = stored_token w)
  /\ (forall d rest, net w = Resp 401 d :: rest -> stored_token w' = None).
Proof.
  cbv zeta. unfold exec. rewrite api_call_run.
  destruct w as [p a s n lg u0 o il iu os ll ir sel]. cbn.
  split; [|split].
  - destruct n as [|[st d|] rest]; cbn; try (repeat split; reflexivity).
    destruct (is2xx st); cbn; [repeat split; reflexivity|].
    destruct (st =? 401); destruct p; repeat split; reflexivity.
  - intros Hn.
    destruct n as [|[st d|] rest]; cbn; try (repeat split; reflexivity).
    destruct (is2xx st); cbn; [repeat split; reflexivity|].
    destruct (Z.eqb_spec st 401) as [->|Hne]; [destruct (Hn d); reflexivity|].
    repeat split; reflexivity.
  - intros d rest ->. cbn. destruct p; cbn; apply lookup_delete_eq.
Qed.

Lemma only_401_evicts_witness :
  stored_token (exec (api_call GET "/orders/o1" None None)
                     (phone [Resp 500 JNull]))
  = Some "t0".
Proof.
  destruct (only_401_evicts (phone [Resp 500 JNull]) GET "/orders/o1" None None)
    as (_ & H & _).
  destruct H as (_ & _ & H); [intros d; discriminate|].
  rewrite H. reflexivity.
Defined.

(** X9. [logout] never throws, also when removing the token from the
    store rejects, and it never talks to the server. When the removal
    goes through, no user is signed in afterwards; on the stores of this
    model it always does, so no token is left and the entry screen
    redirects to the login. When the removal rejects, the error is logged
    and [setUser(null)] is skipped: the user stays as signed in as
    before. *)
Theorem logout_signs_out (w : World) (remove : M unit) :
  (let w' := exec logout w in
   result logout w = Ok tt
   /\ stored_token w' = None
   /\ isAuthenticated w' = false
   /\ Index w' = ToLogin
   /\ net w' = net w
   /\ log w' = log w)
  /\ result (logout_with remove) w = Ok tt
  /\ (forall w1, remove w = (Ok tt, w1) ->
      exec (logout_with remove) w = set_user JNull w1)
  /\ (forall e w1, remove w = (Throw e, w1) ->
      exec (logout_with remove) w
      = set_log (log w1 ++ [ConsoleError "Logout error:"]) w1
      /\ user (exec (logout_with remove) w) = user w1).
Proof.
  split; [|split; [|split]].
  - destruct w as [p a s n lg u0 o il iu os ll ir sel].
    destruct p; run_js; repeat split; apply lookup_delete_eq.
  - run_js. destruct (remove w) as [[[]|e] w1]; reflexivity.
  - intros w1 H. run_js. rewrite H. reflexivity.
  - intros e w1 H. run_js. rewrite H. cbn.
    destruct w1; split; reflexivity.
Qed.

Lemma logout_signs_out_witness :
  isAuthenticated (exec (logout_with (throw (TypeError "SecureStore is unavailable")))
                        (phone []))
  = true.
Proof.
  destruct (logout_signs_out (phone [])
                             (throw (TypeError "SecureStore is unavailable")))
    as (_ & _ & _ & H).
  destruct (H (TypeError "SecureStore is unavailable") (phone []) eq_refl) as [_ Hu].
  unfold isAuthenticated. rewrite Hu. reflexivity.
Defined.

(** X10. [fetchOrder] never throws, whatever the transport answers: it
    sends the one GET for the order, always ends with the loading flag
    cleared, does not touch the updating flag, and the order it leaves on
    screen is either the one it found or the payload of a 2xx answer. *)
Theorem fetchOrder_settles (w : World) (id : string) :
  let w' := exec (fetchOrder id) w in
  result (fetchOrder id) w = Ok tt
  /\ isLoading w' = false
  /\ isUpdating w' = isUpdating w
  /\ requests (log w') = (requests (log w) ++ [refetch_request id w])%list
  /\ (order w' = order w
      \/ exists st d, head (net w) = Some (Resp st d) /\ is2xx st = true /\ order w' = d).
Proof.
  destruct w as [p a s n lg u0 o il iu os ll ir sel].
  destruct p; run_js;
    (destruct n as [|[st d|] rest]; cbn;
     [| destruct (is2xx st) eqn:E2; cbn; [|destruct (st =? 401); cbn] |]);
    (split; [reflexivity|]); (split; [reflexivity|]); (split; [reflexivity|]);
    (split; [same_effects|]);
    first [ left; reflexivity
          | right; exists st, d; repeat split; assumption ].
Qed.

(** X11. How a load ends. A rejected load (a response outside 2xx, or
    none) keeps the order that was on screen and shows the load-failure
    notice, so a screen that had no order yet takes the not-found
    return. A 2xx load puts its payload on screen without any notice:
    the screen takes the not-found return when the payload is falsy and
    goes on to build the order markup for it otherwise. *)
Theorem fetchOrder_outcome (w : World) (id : string) (o : Outcome)
        (rest : list Outcome) :
  net w = o :: rest ->
  let w' := exec (fetchOrder id) w in
  (forall e, failure_of o = Some e ->
     order w' = order w
     /\ alerts (log w') = (alerts (log w) ++ [load_failure_notice])%list
     /\ (truthy (order w) = false -> OrderDetailScreen w' = NotFoundView))
  /\ (forall st d, o = Resp st d -> is2xx st = true ->
        order w' = d
        /\ alerts (log w') = alerts (log w)
        /\ OrderDetailScreen w' = if truthy d then OrderMarkup d else NotFoundView).
Proof.
  intros Hn. cbv zeta.
  destruct w as [p a s n lg u0 o0 il iu os ll ir sel]. cbn in Hn. subst n.
  split.
  - intros e He.
    destruct o as [st d|]; cbn in He;
      try (destruct (is2xx st) eqn:E2; [discriminate|]);
      destruct p; run_js; rewrite ?E2; cbn; try destruct (st =? 401); cbn;
      (split; [reflexivity|]); (split; [same_effects|]);
      intros Ht; unfold OrderDetailScreen; cbn; rewrite Ht; reflexivity.
  - intros st d -> Hst.
    destruct p; run_js; rewrite Hst; cbn;
      (split; [reflexivity|]); (split; [same_effects|]);
      unfold OrderDetailScreen; cbn; destruct (truthy d); reflexivity.
Qed.

Lemma fetchOrder_outcome_witness :
  OrderDetailScreen (exec (fetchOrder "o1") (set_order JNull (phone [NoResp])))
  = NotFoundView.
Proof.
  destruct (fetchOrder_outcome (set_order JNull (phone [NoResp])) "o1" NoResp []
                               eq_refl) as [Hfail _].
  destruct (Hfail (AxiosError None) eq_refl) as (_ & _ & H).
  exact (H eq_refl).
Defined.

(** X12. An accepted advance or cancel never throws and always ends with
    the updating flag cleared, so the action buttons are never left
    disabled; it sends at most two requests and leaves the signed-in
    user and the state of the list screen alone. *)
Theorem mutation_settles (w : World) (id : string) (mut : Mutation) :
  let w' := exec (perform id mut) w in
  result (perform id mut) w = Ok tt
  /\ isUpdating w' = false
  /\ user w' = user w
  /\ orders w' = orders w
  /\ listLoading w' = listLoading w
  /\ isRefreshing w' = isRefreshing w
  /\ selectedStatus w' = selectedStatus w
  /\ (List.length (requests (log w')) <= List.length (requests (log w)) + 2)%nat.
Proof.
  destruct w as [p a s n lg u0 o il iu os ll ir sel].
  destruct mut as [ns|]; destruct p; run_js;
    (destruct n as [|[st d|] n1]; cbn;
     [| destruct (is2xx st) eqn:E2; cbn;
        [ destruct n1 as [|[st1 d1|] n2]; cbn;
          [| destruct (is2xx st1); cbn; [|destruct (st1 =? 401); cbn] |]
        | destruct (st =? 401); cbn ] |]);
    do 7 (split; [reflexivity|]);
    unfold requests; rewrite ?omap_app, ?length_app; cbn; lia.
Qed.

(** ** List screen *)

(** X13. [fetchOrders] never throws and always ends with both the loader
    and the pull-to-refresh indicator cleared, whatever the answer and
    whichever of the two started it; the detail screen's state is not
    touched. *)
Theorem fetchOrders_settles (w : World) (showLoader : bool) :
  let w' := exec (fetchOrders showLoader) w in
  result (fetchOrders showLoader) w = Ok tt
  /\ listLoading w' = false
  /\ isRefreshing w' = false
  /\ selectedStatus w' = selectedStatus w
  /\ order w' = order w
  /\ isLoading w' = isLoading w
  /\ isUpdating w' = isUpdating w.
Proof.
  destruct w as [p a s n lg u0 o il iu os ll ir sel].
  destruct p, showLoader; run_js;
    (destruct n as [|[st d|] rest]; cbn;
     [| destruct (is2xx st) eqn:E2; cbn;
        [ destruct d as [| | | |l|fs]; cbn;
          try (destruct (field "orders" fs) as [v|]; cbn)
        | destruct (st =? 401) eqn:E4; cbn; rewrite ?E4; cbn ] |]);
    repeat split; reflexivity.
Qed.

(** X14. The list request is always one GET of [/admin/orders] with
    [limit = 100]. Its [status] is the tab of the render whose closure
    makes the call, verbatim, and is left out when that tab is [all].
    The closure of the current render (focus effect, pull-to-refresh)
    therefore sends the selected tab, while the notification listener,
    which keeps the closure of the first render, sends no [status]
    whatever tab is selected. *)
Theorem fetchOrders_request (w : World) (sel : string) (showLoader : bool) :
  requests (log (exec (fetchOrders_of sel showLoader) w))
  = (requests (log w)
       ++ [mkRequest GET "/admin/orders" (bearer (stored_token w))
                     (Some (JObj (("limit", JNum 100)
                                    :: if String.eqb sel "all" then []
                                       else [("status", JStr sel)])))
                     None])%list
  /\ exec (fetchOrders showLoader) w
     = exec (fetchOrders_of (selectedStatus w) showLoader) w
  /\ requests (log (exec onNotificationReceived w))
     = (requests (log w)
          ++ [mkRequest GET "/admin/orders" (bearer (stored_token w))
                        (Some (JObj [("limit", JNum 100)])) None])%list.
Proof.
  destruct w as [p a s n lg u0 o il iu os ll ir sel0].
  split; [|split; [reflexivity|]].
  - destruct p, showLoader; run_js;
      (destruct n as [|[st d|] rest]; cbn;
       [| destruct (is2xx st) eqn:E2; cbn;
          [ destruct d as [| | | |l|fs]; cbn;
            try (destruct (field "orders" fs) as [v|]; cbn)
          | destruct (st =? 401) eqn:E4; cbn; rewrite ?E4; cbn ] |]);
      same_effects.
  - unfold onNotificationReceived. destruct p; run_js;
      (destruct n as [|[st d|] rest]; cbn;
       [| destruct (is2xx st) eqn:E2; cbn;
          [ destruct d as [| | | |l|fs]; cbn;
            try (destruct (field "orders" fs) as [v|]; cbn)
          | destruct (st =? 401) eqn:E4; cbn; rewrite ?E4; cbn ] |]);
      same_effects.
Qed.

(** X15. A rejected list fetch is silent unless the status is 401: the
    list on screen, the signed-in user and the stored token are what they
    were and no alert is raised. *)
Theorem fetchOrders_failure_is_silent (w : World) (showLoader : bool)
        (o : Outcome) (rest : list Outcome) (e : JSError) :
  net w = o :: rest -> failure_of o = Some e -> error_status e <> Some 401 ->
  let w' := exec (fetchOrders showLoader) w in
  orders w' = orders w
  /\ alerts (log w') = alerts (log w)
  /\ user w' = user w
  /\ stored_token w' = stored_token w.
Proof.
  intros Hn He H401. cbv zeta.
  destruct w as [p a s n lg u0 o0 il iu os ll ir sel]. cbn in Hn. subst n.
  destruct o as [st d|]; cbn in He;
    try (destruct (is2xx st) eqn:E2; [discriminate|]);
    injection He as <-; cbn in H401;
    try (destruct (Z.eqb_spec st 401) as [->|Hne]; [congruence|]);
    try apply Z.eqb_neq in Hne;
    destruct p, showLoader; run_js; rewrite ?E2; cbn; rewrite ?Hne; cbn;
    rewrite ?Hne; cbn;
    (split; [reflexivity|]); (split; [same_effects|]); split; reflexivity.
Qed.

Lemma fetchOrders_failure_is_silent_witness :
  orders (exec (fetchOrders true) (phone [Resp 503 (JStr "Service Unavailable")]))
  = JArr [sample_order "pending"].
Proof.
  refine (proj1 (fetchOrders_failure_is_silent
                   (phone [Resp 503 (JStr "Service Unavailable")]) true
                   (Resp 503 (JStr "Service Unavailable")) []
                   (AxiosError (Some (503, JStr "Service Unavailable")))
                   eq_refl eq_refl _)).
  discriminate.
Defined.

(** X16. The two accepted shapes decode alike: a 2xx answer that is a
    bare array and one that is an object holding the same array under
    [orders] leave the same list on screen, namely that array, and raise
    no alert. *)
Theorem list_shapes_decode_alike (w1 w2 : World) (b1 b2 : bool) (st1 st2 : Z)
        (l : list JSON) (fs : list (string * JSON)) (rest1 rest2 : list Outcome) :
  net w1 = Resp st1 (JArr l) :: rest1 -> is2xx st1 = true ->
  net w2 = Resp st2 (JObj fs) :: rest2 -> is2xx st2 = true ->
  field "orders" fs = Some (JArr l) ->
  orders (exec (fetchOrders b1) w1) = JArr l
  /\ orders (exec (fetchOrders b2) w2) = orders (exec (fetchOrders b1) w1)
  /\ alerts (log (exec (fetchOrders b1) w1)) = alerts (log w1)
  /\ alerts (log (exec (fetchOrders b2) w2)) = alerts (log w2).
Proof.
  intros Hn1 H1 Hn2 H2 Hf.
  destruct (fetchOrders_bare_array w1 b1 st1 l rest1 Hn1 H1) as [Ho1 Ha1].
  destruct (fetchOrders_wrapped_array w2 b2 st2 fs l rest2 Hn2 H2 Hf) as [Ho2 Ha2].
  cbv zeta in *. rewrite Ho1, Ho2. repeat split; assumption.
Qed.

Lemma list_shapes_decode_alike_witness :
  orders (exec (fetchOrders false)
               (phone [Resp 200 (JObj [("total", JNum 1);
                                        ("orders", JArr [sample_order "paid"])])]))
  = orders (exec (fetchOrders true) (phone [Resp 200 (JArr [sample_order "paid"])])).
Proof.
  exact (proj1 (proj2 (list_shapes_decode_alike
                         (phone [Resp 200 (JArr [sample_order "paid"])])
                         (phone [Resp 200 (JObj [("total", JNum 1);
                                                  ("orders", JArr [sample_order "paid"])])])
                         true false 200 200 [sample_order "paid"]
                         [("total", JNum 1); ("orders", JArr [sample_order "paid"])]
                         [] [] eq_refl eq_refl eq_refl eq_refl eq_refl))).
Defined.

(** X17. A 2xx answer that is a boolean, a number, a text, or an object
    whose [orders] is missing or falsy leaves the empty list on screen
    and raises no alert. *)
Theorem list_without_orders_is_empty (w : World) (showLoader : bool) (st : Z)
        (data : JSON) (rest : list Outcome) :
  net w = Resp st data :: rest -> is2xx st = true ->
  (exists b, data = JBool b) \/ (exists n, data = JNum n) \/ (exists s, data = JStr s)
  \/ (exists fs, data = JObj fs /\ truthy_opt (field "orders" fs) = false) ->
  let w' := exec (fetchOrders showLoader) w in
  orders w' = JArr [] /\ alerts (log w') = alerts (log w).
Proof.
  intros Hn Hst [[b ->] | [[n ->] | [[s ->] | (fs & -> & Hf)]]].
  - apply (fetchOrders_no_orders w showLoader st (JBool b) None rest); auto.
  - apply (fetchOrders_no_orders w showLoader st (JNum n) None rest); auto.
  - apply (fetchOrders_no_orders w showLoader st (JStr s) None rest); auto.
  - apply (fetchOrders_no_orders w showLoader st (JObj fs) (field "orders" fs) rest); auto.
Qed.

Lemma list_without_orders_is_empty_witness :
  orders (exec (fetchOrders true) (phone [Resp 200 (JObj [("message", JStr "ok")])]))
  = JArr [].
Proof.
  refine (proj1 (list_without_orders_is_empty
                   (phone [Resp 200 (JObj [("message", JStr "ok")])]) true 200
                   (JObj [("message", JStr "ok")]) [] eq_refl eq_refl _)).
  right. right. right. exists [("message", JStr "ok")]. split; reflexivity.
Defined.

(** ** Push notifications *)

(** Unfolds the application-level code. *)
Ltac run_app :=
  unfold app_exec, app_result, registerForPushNotificationsAsync, savePushToken,
    fetchStats, notificationsAPI.registerPushToken, authAPI.getCurrentUser,
    authAPI_login, ordersAPI.getOrderStats,
    app_try_catch, app_try_catch_finally, call, call_or_reject, lift, app_modify, app_bind,
    app_ret, app_throw;
  run_js.

Ltac not_in H :=
  repeat (apply elem_of_cons in H as [H|H]; [discriminate H|]); inversion H.

Ltac absurd_conj H :=
  repeat lazymatch type of H with
         | _ /\ _ => let H1 := fresh "H" in
                     destruct H as [H1 H]; try discriminate H1
         end;
  discriminate H.

(** Closes one case of [push_registration]. *)
Ltac reg_done :=
  (split; [intros H; first [reflexivity | discriminate H]|]);
  (split; [intros H; first [eexists; reflexivity | discriminate H]|]);
  (split; [intros t0 H; first [discriminate H
                             | injection H as <-; repeat split; reflexivity]|]);
  eexists; (split; [first [ symmetry; apply app_nil_r
                          | rewrite <- !app_assoc; cbn; reflexivity
                          | reflexivity ]|]);
  (split; [first [reflexivity | discriminate]|]);
  do 3 (split; [split;
                [ intros Hin;
                  first [ solve [not_in Hin]
                        | repeat split; reflexivity ]
                | intros HP;
                  first [ solve [repeat first [ apply list_elem_of_here
                                              | apply list_elem_of_further ]]
                        | exfalso; absurd_conj HP ] ]|]);
  (split; [same_effects|]); (split; [same_effects|]); split; reflexivity.

(** X18. Asking the provider for a push token never talks to the
    backend and touches no stored token. It throws exactly when one of
    the three provider calls that are awaited outside a [try] rejects
    (reading the permission, requesting it, setting up the Android
    channel); otherwise it resolves, to a token only on a physical device
    whose permission is granted in the end. The permission is requested
    only if it could be read and was not granted already, off a device
    the provider is not called at all, and the Android channel is set up
    whenever the provider was asked for a token on Android, even if none
    came. *)
Theorem push_registration (env : PushEnv) (a : App) :
  let a' := app_exec (registerForPushNotificationsAsync env) a in
  (provider_rejects env (world a) = false ->
   app_result (registerForPushNotificationsAsync env) a
   = Ok (obtained_token env (world a)))
  /\ (provider_rejects env (world a) = true ->
      exists what,
        app_result (registerForPushNotificationsAsync env) a
        = Throw (ProviderError what))
  /\ (forall t,
        app_result (registerForPushNotificationsAsync env) a = Ok (Some t) ->
        isDevice env = true /\ permission_granted env = true
        /\ expoPushToken env = Some t)
  /\ exists calls : list ProviderCall,
      providerCalls a' = (providerCalls a ++ calls)%list
      /\ (isDevice env = false -> calls = [])
      /\ (RequestPermissions ∈ calls
          <-> isDevice env = true /\ getPermissionsRejects env = false
              /\ String.eqb (existingStatus env) "granted" = false)
      /\ (GetExpoPushToken ∈ calls <-> reaches_token env = true)
      /\ (SetNotificationChannel "orders" ∈ calls
          <-> reaches_token env = true
              /\ String.eqb (Platform_OS env (world a)) "android" = true)
      /\ requests (log (world a')) = requests (log (world a))
      /\ alerts (log (world a')) = alerts (log (world a))
      /\ net (world a') = net (world a)
      /\ stored_token (world a') = stored_token (world a).
Proof.
  destruct a as [[p sa ss n lg u0 o il iu os ll ir sel] al stt pc].
  destruct env as [dev ex rq tok nos br mo ov gp rp sc].
  unfold obtained_token, provider_rejects, reaches_token, permission_granted,
    Platform_OS.
  cbn [isDevice existingStatus requestedStatus expoPushToken nativeOS
       getPermissionsRejects requestPermissionsRejects setChannelRejects].
  run_app.
  destruct dev; cbn; [|reg_done].
  destruct gp; cbn; [reg_done|].
  destruct (String.eqb ex "granted") eqn:Eex; cbn; rewrite ?Eex; cbn.
  - destruct tok as [t|], p, nos, sc; cbn; reg_done.
  - destruct rp; cbn; [reg_done|].
    destruct (String.eqb rq "granted") eqn:Erq; cbn; rewrite ?Eex, ?Erq; cbn;
      [|reg_done].
    destruct tok as [t|], p, nos, sc; cbn; reg_done.
Qed.

Lemma push_registration_witness :
  exists what,
    app_result (registerForPushNotificationsAsync
                  (mkPushEnv true "granted" "granted" (Some "tok") Android
                             JNull JNull JNull false false true))
               (started (phone []))
    = Throw (ProviderError what).
Proof.
  apply (proj1 (proj2 (push_registration
                         (mkPushEnv true "granted" "granted" (Some "tok") Android
                                    JNull JNull JNull false false true)
                         (started (phone []))))).
  reflexivity.
Defined.

(** Closes one case of [setupPushNotifications_run], by the answer of the
    transport when a request is sent. *)
Ltac setup_done :=
  try match goal with
      | |- context [match ?n with [] => _ | _ :: _ => _ end] =>
          is_var n;
          let st := fresh "st" in
          let d := fresh "d" in
          let rest := fresh "rest" in
          let E2 := fresh "E" in
          destruct n as [|[st d|] rest]; cbn;
          [| destruct (is2xx st) eqn:E2; cbn;
             [| destruct (Z.eqb_spec st 401) as [->|?]; cbn] |]
      end;
  eexists; (split; [reflexivity|]); cbn;
  do 4 (split; [reflexivity|]);
  (split; [same_effects|]); (split; [same_effects|]);
  (split; [intros H401; first [reflexivity | destruct (H401 _ eq_refl)]
          | intros Hnil; first [discriminate Hnil | split; reflexivity]]).

(** What [setupPushNotifications] does to the application, whatever the
    device, the provider and the transport answer. *)
Lemma setupPushNotifications_run (env : PushEnv) (a : App) :
  exists a' : App,
    setupPushNotifications env a = (Ok tt, a')
    /\ authLoading a' = authLoading a
    /\ stats a' = stats a
    /\ user (world a') = user (world a)
    /\ platform (world a') = platform (world a)
    /\ requests (log (world a'))
       = (requests (log (world a)) ++ push_requests env (world a))%list
    /\ alerts (log (world a')) = alerts (log (world a))
    /\ ((forall d, head (net (world a)) <> Some (Resp 401 d)) ->
        stored_token (world a') = stored_token (world a))
    /\ (push_requests env (world a) = [] ->
        net (world a') = net (world a)
        /\ stored_token (world a') = stored_token (world a)).
Proof.
  destruct a as [[p sa ss n lg u0 o il iu os ll ir sel] al stt pc].
  destruct env as [dev ex rq tok nos br mo ov gp rp sc].
  unfold setupPushNotifications, push_requests, push_request, obtained_token,
    provider_rejects, reaches_token, permission_granted, Platform_OS.
  cbn [isDevice existingStatus requestedStatus expoPushToken nativeOS
       getPermissionsRejects requestPermissionsRejects setChannelRejects].
  run_app.
  destruct dev; cbn; [|setup_done].
  destruct gp; cbn; [setup_done|].
  destruct (String.eqb ex "granted") eqn:Eex; cbn; rewrite ?Eex; cbn.
  - destruct tok as [t|]; cbn; [destruct (String.eqb t "") eqn:Et|];
      destruct p, nos, sc; cbn; rewrite ?Et; cbn; setup_done.
  - destruct rp; cbn; [setup_done|].
    destruct (String.eqb rq "granted") eqn:Erq; cbn; rewrite ?Eex, ?Erq; cbn;
      [|setup_done].
    destruct tok as [t|]; cbn; [destruct (String.eqb t "") eqn:Et|];
      destruct p, nos, sc; cbn; rewrite ?Et; cbn; setup_done.
Qed.

(** X19. [setupPushNotifications] never throws, also when a provider
    call rejects, and changes neither the
    signed-in user nor the provider's loading flag nor any alert. It
    sends at most one request: the registration of the obtained token
    with the device description, and only when that token is not empty.
    Unless that request is answered 401 the stored token survives. *)
Theorem push_setup (env : PushEnv) (a : App) :
  let a' := app_exec (setupPushNotifications env) a in
  app_result (setupPushNotifications env) a = Ok tt
  /\ user (world a') = user (world a)
  /\ authLoading a' = authLoading a
  /\ alerts (log (world a')) = alerts (log (world a))
  /\ requests (log (world a'))
     = (requests (log (world a)) ++ push_requests env (world a))%list
  /\ (List.length (push_requests env (world a)) <= 1)%nat
  /\ (obtained_token env (world a) = None -> push_requests env (world a) = [])
  /\ ((forall d, head (net (world a)) <> Some (Resp 401 d)) ->
      stored_token (world a') = stored_token (world a)).
Proof.
  cbv zeta. unfold app_exec, app_result.
  destruct (setupPushNotifications_run env a)
    as (a' & E & Hal & Hst & Hu & Hp & Hrq & Halr & H401 & Hnil).
  rewrite E. cbn.
  repeat (split; [first [reflexivity | assumption]|]).
  split; [|split; [|exact H401]].
  - unfold push_requests. destruct (obtained_token env (world a)) as [t|]; [|cbn; lia].
    destruct (String.eqb t ""); cbn; lia.
  - intros Hn. unfold push_requests. rewrite Hn. reflexivity.
Qed.

Lemma push_setup_witness :
  requests (log (world (app_exec (setupPushNotifications
                                    (mkPushEnv false "granted" "granted" (Some "tok") Ios
                                               JNull JNull JNull false true false))
                                 (started (phone [])))))
  = [].
Proof.
  destruct (push_setup (mkPushEnv false "granted" "granted" (Some "tok") Ios
                                  JNull JNull JNull false true false)
                       (started (phone [])))
    as (_ & _ & _ & _ & Hrq & _ & Hnone & _).
  cbv zeta in Hrq. rewrite Hrq, (Hnone eq_refl). reflexivity.
Defined.

(** ** Session start and login *)

Ltac use_setup :=
  match goal with
  | |- context [setupPushNotifications ?e ?x] =>
      let a' := fresh "a'" in
      let E := fresh "E" in
      destruct (setupPushNotifications_run e x)
        as (a' & E & ?Hal & ?Hst & ?Hu & ?Hp & ?Hrq & ?Halr & ?H401 & ?Hnil);
      rewrite E; cbn in *
  end.

(** X20. Started without a stored token (or with an empty one),
    [checkAuthStatus] sends nothing and changes nothing but the loading
    flag, which it clears; the entry screen then follows the user that
    was there, and on a fresh start that is the login. *)
Theorem startup_without_token (env : PushEnv) (a : App) :
  has_token (stored_token (world a)) = false ->
  app_result (checkAuthStatus env) a = Ok tt
  /\ app_exec (checkAuthStatus env) a = set_authLoading false a
  /\ (user (world a) = JNull ->
      IndexScreen (app_exec (checkAuthStatus env) a) = Redirect ToLogin).
Proof.
  intros Ht.
  destruct a as [[p sa ss n lg u0 o il iu os ll ir sel] al stt pc].
  unfold checkAuthStatus.
  destruct p; cbn in Ht; run_app; rewrite Ht; cbn;
    (split; [reflexivity|]); (split; [reflexivity|]);
    intros ->; reflexivity.
Qed.

Lemma startup_without_token_witness :
  IndexScreen (app_exec (checkAuthStatus sample_env)
                        (started (exec removeAuthToken (phone []))))
  = Redirect ToLogin.
Proof.
  exact (proj2 (proj2 (startup_without_token
                         sample_env (started (exec removeAuthToken (phone [])))
                         eq_refl))
               eq_refl).
Defined.

(** X21. Started with a stored token, any failure of the session check
    (not only a 401: also another error status or no answer at all)
    deletes the token. The check does not throw, leaves the user as it
    was, clears the loading flag, sent the one [GET /auth/me] and never
    reached the notification provider. *)
Theorem startup_failure_evicts (env : PushEnv) (a : App) (o : Outcome)
        (rest : list Outcome) (e : JSError) :
  has_token (stored_token (world a)) = true ->
  net (world a) = o :: rest -> failure_of o = Some e ->
  let a' := app_exec (checkAuthStatus env) a in
  app_result (checkAuthStatus env) a = Ok tt
  /\ stored_token (world a') = None
  /\ user (world a') = user (world a)
  /\ authLoading a' = false
  /\ providerCalls a' = providerCalls a
  /\ requests (log (world a'))
     = (requests (log (world a))
          ++ [mkRequest GET "/auth/me" (bearer (stored_token (world a))) None None])%list.
Proof.
  intros Ht Hn He. cbv zeta.
  destruct a as [[p sa ss n lg u0 o0 il iu os ll ir sel] al stt pc].
  cbn in Hn. subst n. unfold checkAuthStatus.
  destruct o as [st d|]; cbn in He;
    try (destruct (is2xx st) eqn:E2; [discriminate|]);
    destruct p; cbn in Ht; run_app; rewrite Ht; cbn; rewrite ?E2; cbn;
    try (destruct (st =? 401); cbn);
    (split; [reflexivity|]);
    (split; [rewrite ?delete_delete_eq; apply lookup_delete_eq|]);
    do 3 (split; [reflexivity|]); same_effects.
Qed.

Lemma startup_failure_evicts_witness :
  stored_token (world (app_exec (checkAuthStatus sample_env)
                                (started (phone [NoResp]))))
  = None.
Proof.
  exact (proj1 (proj2 (startup_failure_evicts
                         sample_env (started (phone [NoResp])) NoResp []
                         (AxiosError None) eq_refl eq_refl eq_refl))).
Defined.

(** X22. Started with a stored token and a 2xx answer of the session
    check, the payload becomes the signed-in user and the loading flag is
    cleared, whatever the push setup that follows runs into; the entry
    screen redirects to the orders when that payload is truthy. *)
Theorem startup_restores_session (env : PushEnv) (a : App) (st : Z) (d : JSON)
        (rest : list Outcome) :
  has_token (stored_token (world a)) = true ->
  net (world a) = Resp st d :: rest -> is2xx st = true ->
  let a' := app_exec (checkAuthStatus env) a in
  app_result (checkAuthStatus env) a = Ok tt
  /\ user (world a') = d
  /\ authLoading a' = false
  /\ alerts (log (world a')) = alerts (log (world a))
  /\ IndexScreen a' = Redirect (if truthy d then ToOrders else ToLogin)
  /\ requests (log (world a'))
     = (requests (log (world a))
          ++ mkRequest GET "/auth/me" (bearer (stored_token (world a))) None None
          :: push_requests env (world a))%list.
Proof.
  intros Ht Hn Hst. cbv zeta.
  destruct a as [[p sa ss n lg u0 o0 il iu os ll ir sel] al stt pc].
  cbn in Hn. subst n. unfold checkAuthStatus.
  destruct p; cbn in Ht; run_app; rewrite Ht; cbn; rewrite Hst; cbn;
    use_setup;
    (split; [reflexivity|]); (split; [assumption|]); (split; [reflexivity|]);
    (split; [rewrite Halr; same_effects|]);
    (split; [unfold IndexScreen, Index, isAuthenticated; cbn; rewrite Hu; reflexivity|]);
    rewrite Hrq; unfold requests; rewrite ?omap_app; cbn;
    rewrite <- ?app_assoc; reflexivity.
Qed.

Lemma startup_restores_session_witness :
  IndexScreen (app_exec (checkAuthStatus sample_env)
                        (started (phone [Resp 200 sample_user; Resp 201 JNull])))
  = Redirect ToOrders.
Proof.
  exact (proj1 (proj2 (proj2 (proj2 (proj2
           (startup_restores_session
              sample_env (started (phone [Resp 200 sample_user; Resp 201 JNull]))
              200 sample_user [Resp 201 JNull] eq_refl eq_refl eq_refl)))))).
Defined.

(** X23. After a 401 has evicted the token, the next start of the
    application sends no request, calls no provider and lands on the
    login screen. *)
Theorem restart_after_eviction (env : PushEnv) (w : World) (m : Method)
        (u : string) (ps bd : option JSON) (d : JSON) (rest : list Outcome) :
  net w = Resp 401 d :: rest ->
  let a' := app_exec (checkAuthStatus env)
                     (started (exec (api_call m u ps bd) w)) in
  IndexScreen a' = Redirect ToLogin
  /\ requests (log (world a')) = []
  /\ providerCalls a' = [].
Proof.
  intros Hn. cbv zeta. unfold exec. rewrite api_call_run, Hn. cbn.
  destruct w as [p sa ss n lg u0 o0 il iu os ll ir sel].
  unfold checkAuthStatus.
  destruct p; run_app; rewrite lookup_delete_eq; cbn; repeat split; reflexivity.
Qed.

Lemma restart_after_eviction_witness :
  IndexScreen (app_exec (checkAuthStatus sample_env)
                        (started (exec (api_call GET "/orders/o1" None None)
                                       (phone [Resp 401 JNull]))))
  = Redirect ToLogin.
Proof.
  exact (proj1 (restart_after_eviction sample_env (phone [Resp 401 JNull])
                                       GET "/orders/o1" None None JNull [] eq_refl)).
Defined.

(** X24. A login answered 2xx with a non-empty text [access_token]
    reports success, stores that token, makes the [user] of the answer
    the signed-in user (none when the answer has no [user]) and clears
    the loading flag. The push registration that follows already carries
    the new token, and unless it is answered 401 the token stays. *)
Theorem login_success (store : JSON -> M unit) (env : PushEnv)
        (email password : string) (a : App) (st : Z) (data : JSON)
        (rest : list Outcome) (t : string) :
  net (world a) = Resp st data :: rest -> is2xx st = true ->
  member data "access_token" = Value (Some (JStr t)) -> t <> "" ->
  let a' := app_exec (login store env email password) a in
  app_result (login store env email password) a = Ok (mkLoginResult true None)
  /\ user (world a') = or_null (member_opt (Some data) "user")
  /\ authLoading a' = false
  /\ requests (log (world a'))
     = (requests (log (world a))
          ++ login_request (world a) email password
          :: push_requests env (exec (setAuthToken t) (world a)))%list
  /\ ((forall d, head rest <> Some (Resp 401 d)) ->
      stored_token (world a') = Some t).
Proof.
  intros Hn Hst Hm Ht. cbv zeta.
  assert (Et : String.eqb t "" = false) by (apply String.eqb_neq; exact Ht).
  destruct a as [[p sa ss n lg u0 o0 il iu os ll ir sel] al stt pc].
  cbn in Hn. subst n. unfold login, storeToken, setAuthToken.
  destruct p; run_app; rewrite Hst; cbn; rewrite Hm; cbn; rewrite Et; cbn;
    use_setup;
    (split; [reflexivity|]); (split; [assumption|]); (split; [reflexivity|]);
    (split; [rewrite Hrq; unfold requests; rewrite ?omap_app; cbn;
             rewrite <- ?app_assoc; reflexivity|]);
    intros Hrest; rewrite (H401 Hrest); apply lookup_insert_eq.
Qed.

Lemma login_success_witness :
  app_result (login (fun _ => ret tt) sample_env "admin@dribble.com" "Admin123!")
             (started (exec removeAuthToken
                            (phone [Resp 200 (JObj [("access_token", JStr "jwt1");
                                                     ("user", sample_user)])])))
  = Ok (mkLoginResult true None).
Proof.
  refine (proj1 (login_success
                   (fun _ => ret tt) sample_env "admin@dribble.com" "Admin123!"
                   (started (exec removeAuthToken
                                  (phone [Resp 200 (JObj [("access_token", JStr "jwt1");
                                                           ("user", sample_user)])])))
                   200 (JObj [("access_token", JStr "jwt1"); ("user", sample_user)])
                   [] "jwt1" eq_refl eq_refl eq_refl _)).
  discriminate.
Defined.



(** X26. A 2xx login answer without a usable token is a failed login
    that changes nothing: with a missing or falsy [access_token] the
    result says the response was invalid, with the body [null] it
    carries the stock failure message; in both cases no token is written,
    nobody is signed in and no provider is called. *)
Theorem login_without_token (store : JSON -> M unit) (env : PushEnv)
        (email password : string) (a : App) (st : Z) (data : JSON)
        (rest : list Outcome) :
  net (world a) = Resp st data :: rest -> is2xx st = true ->
  let a' := app_exec (login store env email password) a in
  ((forall access_token,
       member data "access_token" = Value access_token ->
       truthy_opt access_token = false ->
       app_result (login store env email password) a
       = Ok (mkLoginResult false (Some (JStr "Invalid response from server"))))
   /\ (data = JNull ->
       app_result (login store env email password) a
       = Ok (mkLoginResult false
               (Some (JStr "Login failed. Please check your credentials.")))))
  /\ ((data = JNull
       \/ exists access_token,
           member data "access_token" = Value access_token
           /\ truthy_opt access_token = false) ->
      asyncStorage (world a') = asyncStorage (world a)
      /\ secureStore (world a') = secureStore (world a)
      /\ user (world a') = user (world a)
      /\ authLoading a' = false
      /\ providerCalls a' = providerCalls a).
Proof.
  intros Hn Hst. cbv zeta.
  destruct a as [[p sa ss n lg u0 o0 il iu os ll ir sel] al stt pc].
  cbn in Hn. subst n. unfold login.
  split; [split|].
  - intros v Hm Hv.
    destruct p; run_app; rewrite Hst; cbn; rewrite Hm; cbn; rewrite Hv; reflexivity.
  - intros ->. destruct p; run_app; rewrite Hst; reflexivity.
  - intros [-> | (v & Hm & Hv)];
      destruct p; run_app; rewrite Hst; cbn; rewrite ?Hm; cbn; rewrite ?Hv; cbn;
      repeat split; reflexivity.
Qed.

Lemma login_without_token_witness :
  app_result (login (fun _ => ret tt) sample_env "admin@dribble.com" "Admin123!")
             (started (phone [Resp 200 (JObj [("token_type", JStr "bearer")])]))
  = Ok (mkLoginResult false (Some (JStr "Invalid response from server"))).
Proof.
  exact (proj1 (proj1 (login_without_token
                         (fun _ => ret tt) sample_env "admin@dribble.com" "Admin123!"
                         (started (phone [Resp 200 (JObj [("token_type", JStr "bearer")])]))
                         200 (JObj [("token_type", JStr "bearer")]) []
                         eq_refl eq_refl))
               None eq_refl eq_refl).
Defined.

(** X27. [login] never throws and always ends with the loading flag
    cleared, whatever the transport answers, whatever the storage does
    with the token and whatever the push setup runs into. *)
Theorem login_settles (store : JSON -> M unit) (env : PushEnv)
        (email password : string) (a : App) :
  (exists r : LoginResult,
      app_result (login store env email password) a = Ok r)
  /\ authLoading (app_exec (login store env email password) a) = false.
Proof.
  destruct a as [[p sa ss n lg u0 o0 il iu os ll ir sel] al stt pc].
  unfold login, storeToken, setAuthToken.
  destruct p; run_app;
    (destruct n as [|[st d|] rest]; cbn;
     [| destruct (is2xx st) eqn:E2; cbn; [|destruct (st =? 401); cbn] |]);
    try (split; [eexists|]; reflexivity);
    (destruct d as [|b|z|s0|l|fs]; cbn; try (split; [eexists|]; reflexivity));
    (destruct (field "access_token" fs) as [v|]; cbn;
     [|split; [eexists|]; reflexivity]);
    (destruct (truthy v) eqn:Ev; cbn; [|split; [eexists|]; reflexivity]);
    (destruct v as [|b|z|s0|l|fs']; cbn;
     try match goal with
         | |- context [store ?v ?w] => destruct (store v w) as [[[]|e1] w1]; cbn
         end);
    try use_setup; split; first [eexists; reflexivity | reflexivity].
Qed.

(** ** Stats of the list screen *)

(** X28. The stats fetch is best effort: it never throws and never
    raises an alert, and it sends the one GET of [/admin/orders/stats].
    A 2xx answer replaces the stats by its payload; any rejection, or no
    answer, keeps the stats that were there. Unlike the list fetch it
    never signs the user out, not even on a 401. *)
Theorem fetchStats_is_best_effort (a : App) :
  let a' := app_exec fetchStats a in
  app_result fetchStats a = Ok tt
  /\ alerts (log (world a')) = alerts (log (world a))
  /\ user (world a') = user (world a)
  /\ orders (world a') = orders (world a)
  /\ requests (log (world a'))
     = (requests (log (world a))
          ++ [mkRequest GET "/admin/orders/stats" (bearer (stored_token (world a)))
                        None None])%list
  /\ (forall st d rest,
        net (world a) = Resp st d :: rest -> is2xx st = true -> stats a' = d)
  /\ (forall o rest e,
        net (world a) = o :: rest -> failure_of o = Some e -> stats a' = stats a)
  /\ (net (world a) = [] -> stats a' = stats a).
Proof.
  destruct a as [[p sa ss n lg u0 o0 il iu os ll ir sel] al stt pc].
  destruct p; run_app;
    (destruct n as [|[st d|] rest]; cbn;
     [| destruct (is2xx st) eqn:E2; cbn; [|destruct (st =? 401); cbn] |]);
    (split; [reflexivity|]); (split; [same_effects|]);
    do 2 (split; [reflexivity|]); (split; [same_effects|]);
    (split; [intros st' d' rest' H Hst;
             first [discriminate H | injection H as -> -> _; first [reflexivity | congruence]]|]);
    (split; [intros o' rest' e H He;
             first [discriminate H | reflexivity
                   | injection H as <- _; cbn in He; rewrite E2 in He; discriminate He]|]);
    intros H; first [reflexivity | discriminate H].
Qed.

Lemma fetchStats_is_best_effort_witness :
  stats (app_exec fetchStats
                  (started (phone [Resp 200 (JObj [("total_orders", JNum 5)])])))
  = JObj [("total_orders", JNum 5)].
Proof.
  destruct (fetchStats_is_best_effort
              (started (phone [Resp 200 (JObj [("total_orders", JNum 5)])])))
    as (_ & _ & _ & _ & _ & H & _).
  exact (H 200 (JObj [("total_orders", JNum 5)]) [] eq_refl eq_refl).
Defined.

(** ** Order card *)

Lemma safe_within (n : Z) : 0 <= n <= MAX_SAFE -> safe n = true.
Proof.
  intros [H0 H1]. unfold safe.
  assert (0 < MAX_SAFE) by reflexivity.
  apply andb_true_iff. split; apply Z.leb_le; lia.
Qed.

Lemma whole_sum_cons (i : OrderItem) (l : list OrderItem) :
  whole_sum (i :: l)
  = match quantity i with
    | Whole q => q + whole_sum l
    | Undetermined => whole_sum l
    end.
Proof. reflexivity. Qed.

Lemma whole_sum_nonneg (l : list OrderItem) :
  Forall (fun i => exists q, quantity i = Whole q /\ 0 <= q) l -> 0 <= whole_sum l.
Proof.
  induction 1 as [|i l (q & Hq & H0) _ IH]; [reflexivity|].
  rewrite whole_sum_cons, Hq. lia.
Qed.

(** The running sum of [reduce] stays exact as long as it stays within
    the bound. *)
Lemma reduce_exact (l : list OrderItem) (acc : Z) :
  Forall (fun i => exists q, quantity i = Whole q /\ 0 <= q) l ->
  0 <= acc -> acc + whole_sum l <= MAX_SAFE ->
  fold_left (fun sum item => num_add sum (quantity item)) l (Whole acc)
  = Whole (acc + whole_sum l).
Proof.
  intros Hl. revert acc.
  induction Hl as [|i l (q & Hq & H0) Hl IH]; intros acc Hacc Hmax.
  - cbn. f_equal. lia.
  - pose proof (whole_sum_nonneg l Hl) as Hs.
    rewrite whole_sum_cons, Hq in Hmax |- *.
    cbn [fold_left]. rewrite Hq. unfold num_add.
    rewrite !safe_within by lia. cbn [andb].
    rewrite IH by lia. f_equal. lia.
Qed.

Lemma whole_sum_perm (l1 l2 : list OrderItem) :
  l1 ≡ₚ l2 -> whole_sum l1 = whole_sum l2.
Proof.
  induction 1 as [|i l1 l2 _ IH|i j l|l1 l2 l3 _ IH1 _ IH2];
    rewrite ?whole_sum_cons; try reflexivity.
  - rewrite IH. reflexivity.
  - destruct (quantity i), (quantity j); lia.
  - congruence.
Qed.

(** X29. The item count of a card is the sum of the quantities of its
    lines as long as that sum is exact in double arithmetic: for lines
    whose quantities are whole, not negative and add up to at most 2^53
    the count is their exact sum, whatever the order of the lines; it is
    zero for an order without [items] or with none. Past that bound the
    additions round, and the model does not say to what. *)
Theorem totalItems_is_sum :
  totalItems None = Whole 0
  /\ totalItems (Some []) = Whole 0
  /\ (forall l : list OrderItem,
         countable l -> totalItems (Some l) = Whole (whole_sum l))
  /\ (forall l1 l2 : list OrderItem,
         l1 ≡ₚ l2 -> countable l1 -> totalItems (Some l1) = totalItems (Some l2))
  /\ totalItems (Some [mkItem "Jersey" (Whole MAX_SAFE) "M" "Red";
                       mkItem "Shorts" (Whole 1) "L" "Blue"])
     = Undetermined.
Proof.
  assert (Hsum : forall l : list OrderItem,
             countable l -> totalItems (Some l) = Whole (whole_sum l)).
  { intros l [Hl Hmax]. unfold totalItems.
    rewrite (reduce_exact l 0 Hl) by lia. rewrite Z.add_0_l.
    destruct (Z.eqb_spec (whole_sum l) 0) as [->|]; reflexivity. }
  split; [reflexivity|]. split; [reflexivity|]. split; [exact Hsum|].
  split; [|reflexivity].
  intros l1 l2 Hp Hc.
  assert (Hc2 : countable l2).
  { destruct Hc as [Hl Hmax]. split.
    - rewrite <- Hp. exact Hl.
    - rewrite <- (whole_sum_perm l1 l2 Hp). exact Hmax. }
  rewrite (Hsum l1 Hc), (Hsum l2 Hc2), (whole_sum_perm l1 l2 Hp). reflexivity.
Qed.

Lemma totalItems_is_sum_witness :
  totalItems (Some [mkItem "Jersey" (Whole 2) "M" "Red";
                    mkItem "Shorts" (Whole 3) "L" "Blue"])
  = Whole 5.
Proof.
  apply (proj1 (proj2 (proj2 totalItems_is_sum))).
  split.
  - repeat constructor; eexists; (split; [reflexivity | discriminate]).
  - discriminate.
Defined.
